(** * ROVER_DASHBOARD: position store, mark registry, broadcast hub,
      dredge geometry and trail recorder

    A shallow embedding of [backend/server.js] (the revision with the marks
    API), [frontend/config.js] (dredge geometry) and [frontend/app.js]
    (trail recording), with the properties of the written description
    stated and settled as theorems.

    Conventions.
    - A field of a JSON request body is [Undefined] (key absent), [Null], or
      a value of the type the sender documents for it.  The embedding covers
      bodies of that shape; a number sent where a string is documented, or
      the reverse, is outside it.
    - Back-end numbers are exact rationals ([Q]) or integers ([Z]): a JSON
      number is a finite double, which is a rational, and no [NaN] or
      infinity can be parsed from JSON.  The product and the quotient of
      the fix rate are rounded to the nearest double ([Js.round_double]),
      as the source rounds them; sums of counts are exact, as they are in
      the source below [2^53].
    - Front-end numbers are real numbers ([R]), with [sin], [cos], [sqrt]
      and [atan] of the standard library standing for the [Math] functions.
    - The wall clock ([new Date()], [Date.now()]) is an argument of the
      handler that reads it.
    - A handler returns its reply, the next state, and the frames it handed
      to [ws.send], in order.
    - Writing [marks.json] and the browser's local storage is not
      modelled: no property below reads what was written. *)

From Stdlib Require Import ZArith QArith Qround Qabs List Sorted String Ascii Bool Lia.
From Stdlib Require Import DecimalString.
From Stdlib Require Import Reals Qreals Psatz.
Import ListNotations.

(* ================================================================== *)
(** * JavaScript values *)
(* ================================================================== *)

Module Js.

(** A property read off a parsed JSON object. *)
Inductive field (A : Type) : Type :=
| Undefined : field A
| Null : field A
| Val (a : A) : field A.
Arguments Undefined {A}.
Arguments Null {A}.
Arguments Val {A} a.

(** [x === undefined] *)
Definition is_undefined {A} (x : field A) : bool :=
  match x with Undefined => true | _ => false end.

(** [x !== null] *)
Definition not_null {A} (x : field A) : bool :=
  match x with Null => false | _ => true end.

(** [String(n)] for an integer-valued number below [1e21] in absolute
    value, where the source prints all the digits. *)
Definition string_of_Z (n : Z) : string :=
  NilZero.string_of_int (Z.to_int n).

(** [String(x)] for an integer-valued field. *)
Definition String_ (x : field Z) : string :=
  match x with
  | Undefined => "undefined"
  | Null => "null"
  | Val n => string_of_Z n
  end.

Fixpoint repeat_string (n : nat) (fill : string) : string :=
  match n with
  | O => EmptyString
  | S k => (fill ++ repeat_string k fill)%string
  end.

(** [s.padStart(n, c)] for a one-character filler [c]. *)
Definition padStart (n : nat) (c : string) (s : string) : string :=
  (repeat_string (n - String.length s) c ++ s)%string.

(** [x.toFixed(1)] (ECMAScript, Number.prototype.toFixed): the sign is
    split off, [n] is the integer for which [n / 10 - |x|] is closest to
    zero, the larger one on a tie, and the digits of [n] are printed with
    a point before the last one.  From [1e21] on the source switches to
    exponent notation, which is outside this model. *)
Definition tenths (x : Q) : Z := Qfloor (10 * Qabs x + (1 # 2))%Q.

Definition toFixed1 (x : Q) : string :=
  let s := if Qle_bool 0%Q x then EmptyString else "-"%string in
  let n := tenths x in
  let m := string_of_Z n in
  let m := if (String.length m <=? 1)%nat then ("0" ++ m)%string else m in
  let k := String.length m in
  (s ++ substring 0 (k - 1) m ++ "." ++ substring (k - 1) 1 m)%string.

(** Truthiness, as [||] and [if] test it. *)
Definition truthy_num (x : field Q) : bool :=
  match x with Val q => negb (Qeq_bool q 0%Q) | _ => false end.

Definition truthy_str (x : field string) : bool :=
  match x with Val s => negb (String.eqb s "") | _ => false end.

(** [x || d] for a string-valued field. *)
Definition or_str (x : field string) (d : string) : string :=
  match x with
  | Val v => if String.eqb v "" then d else v
  | _ => d
  end.

(** [x || null] for a number-valued field. *)
Definition or_null (x : field Q) : field Q :=
  if truthy_num x then x else Null.

(** [x || 0] for an integer-valued field. *)
Definition or_zero (x : field Z) : Z :=
  match x with Val n => n | _ => 0%Z end.

(** [ToNumber(x)] as [*] applies it; [None] is [NaN]. *)
Definition to_number (x : field Z) : option Q :=
  match x with
  | Undefined => None
  | Null => Some 0%Q
  | Val n => Some (inject_Z n)
  end.

(** ** Doubles

    A JavaScript number is an IEEE 754 binary64 value, and [*] and [/]
    give the double nearest to the exact result, the one with the even
    significand on a tie. *)

(** The integer nearest to [num / den], the even one on a tie
    ([0 < den]). *)
Definition nearest_even (num den : Z) : Z :=
  let q := (num / den)%Z in
  let r := (num mod den)%Z in
  if (den <? 2 * r)%Z then (q + 1)%Z
  else if (2 * r =? den)%Z then (if Z.even q then q else (q + 1)%Z)
       else q.

(** The [k] for which [2^52 <= (n / d) * 2^k < 2^53], for positive [n]
    and [d]: the 53 bits of the significand are those of the integer part
    of [(n / d) * 2^k]. *)
Definition binade (n d : Z) : Z :=
  let k0 := (53 - (Z.log2 n - Z.log2 d))%Z in
  if (2 ^ 53 * (d * 2 ^ Z.max (- k0) 0) <=? n * 2 ^ Z.max k0 0)%Z
  then (k0 - 1)%Z else k0.

(** The double nearest to a rational whose magnitude is zero or in the
    range of the normal doubles (about [2.2e-308] to [1.8e308]); the
    subnormal numbers and the overflow to infinity are outside this
    model. *)
Definition round_double (x : Q) : Q :=
  let n := Z.abs (Qnum x) in
  let d := Zpos (Qden x) in
  if (n =? 0)%Z then 0%Q
  else
    let k := binade n d in
    let m := nearest_even (n * 2 ^ Z.max k 0) (d * 2 ^ Z.max (- k) 0) in
    let v := Qmake (m * 2 ^ Z.max (- k) 0) (Z.to_pos (2 ^ Z.max k 0)) in
    if (Qnum x <? 0)%Z then Qopp v else v.

End Js.

Import Js.

(* ================================================================== *)
(** * The server: [backend/server.js] *)
(* ================================================================== *)

Module Backend.

(** ** Data *)

(** The body of [POST /api/position]. *)
Record Fix : Type := mkFix {
  fix_latitude : field Q;
  fix_longitude : field Q;
  fix_altitude : field Q;
  fix_h_acc : field Q;
  fix_v_acc : field Q;
  fix_fix_type : field Z;
  fix_carr_soln : field Z;
  fix_num_sv : field Z;
  fix_rtcm_bytes : field Z;
  fix_fixed_count : field Z;
  fix_float_count : field Z;
  fix_battery_pct : field Z;
  fix_firmware_version : field string;
  fix_hour : field Z;
  fix_min : field Z;
  fix_sec : field Z
}.

(** [fixed_rate] holds the number [0] or the string [toFixed] returns. *)
Inductive Rate : Type :=
| RateNum (q : Q)
| RateStr (s : string).

(** [roverState] *)
Record RoverState : Type := mkRoverState {
  latitude : field Q;
  longitude : field Q;
  altitude : field Q;
  h_acc : field Q;
  v_acc : field Q;
  fix_type : field Z;
  carr_soln : field Z;
  num_sv : field Z;
  rtcm_bytes : field Z;
  fixed_count : field Z;
  float_count : field Z;
  fixed_rate : field Rate;
  battery_pct : field Z;
  firmware_version : field string;
  timestamp : field string;
  last_update : field string
}.

(** The initial [roverState]: every property [null]. *)
Definition roverState0 : RoverState :=
  mkRoverState Null Null Null Null Null Null Null Null
               Null Null Null Null Null Null Null Null.

(** An element of [marks]. *)
Record Mark : Type := mkMark {
  mark_id : Z;
  mark_label : string;
  mark_latitude : field Q;
  mark_longitude : field Q;
  mark_h_acc : field Q;
  mark_timestamp : string;
  mark_created_at : Z
}.

(** The body of [POST /api/marks]. *)
Record MarkBody : Type := mkMarkBody {
  body_latitude : field Q;
  body_longitude : field Q;
  body_h_acc : field Q;
  body_label : field string
}.

(** A connection object; [clients] holds references to them. *)
Definition ws : Type := nat.

(** The messages handed to [JSON.stringify] before [send]. *)
Inductive Message : Type :=
| MsgPosition (data : RoverState)
| MsgMarks (data : list Mark)
| MsgMarkCreate (data : Mark)
| MsgMarkDelete (id : option Z)
| MsgMarkUpdate (data : Mark)
| MsgMarkClear.

(** One call of [send]: the connection and the message. *)
Definition Frame : Type := (ws * Message)%type.

(** The module-level variables of the server.  [clients] is a [Set],
    kept here in insertion order. *)
Record Server : Type := mkServer {
  roverState : RoverState;
  marks : list Mark;
  markCounter : Z;
  clients : list ws
}.

Definition server0 : Server := mkServer roverState0 [] 0%Z [].

(** What a handler does with [res], or that it threw past it. *)
Inductive Reply (A : Type) : Type :=
| Json (a : A)
| Status (code : Z) (error : string)
| Threw (error : string).
Arguments Json {A} a.
Arguments Status {A} code error.
Arguments Threw {A} error.

(** The value of [client.readyState] for each connection while one
    handler runs; [1] is [WebSocket.OPEN]. *)
Definition ReadyStates : Type := ws -> Z.

(** ** [broadcast] *)

Fixpoint broadcast (readyState : ReadyStates) (cs : list ws) (message : Message)
  : list Frame :=
  match cs with
  | [] => []
  | client :: rest =>
      if (readyState client =? 1)%Z
      then (client, message) :: broadcast readyState rest message
      else broadcast readyState rest message
  end.

(** ** [wss.on('connection')] and [ws.on('close')] *)

(** [clients.add(ws)] *)
Definition clients_add (c : ws) (cs : list ws) : list ws :=
  if existsb (Nat.eqb c) cs then cs else cs ++ [c].

(** [clients.delete(ws)] *)
Definition clients_delete (c : ws) (cs : list ws) : list ws :=
  filter (fun x => negb (Nat.eqb c x)) cs.

Definition on_connection (c : ws) (s : Server) : Server * list Frame :=
  let s' := mkServer (roverState s) (marks s) (markCounter s)
                     (clients_add c (clients s)) in
  let position :=
    if not_null (latitude (roverState s))
    then [(c, MsgPosition (roverState s))] else [] in
  let existing :=
    if (0 <? List.length (marks s))%nat
    then [(c, MsgMarks (marks s))] else [] in
  (s', position ++ existing).

Definition on_close (c : ws) (s : Server) : Server :=
  mkServer (roverState s) (marks s) (markCounter s)
           (clients_delete c (clients s)).

(** ** [POST /api/position] *)

Definition total_of (f : Fix) : Z :=
  (or_zero (fix_fixed_count f) + or_zero (fix_float_count f))%Z.

(** [100.0 * fixed_count / total] on a number [fixed_count]: the product
    is rounded to a double, and so is its quotient by [total]. *)
Definition rate_percent (fixed_count : Q) (total : Z) : Q :=
  round_double (round_double (100 * fixed_count) / inject_Z total).

(** [total > 0 ? (100.0 * fixed_count / total).toFixed(1) : 0].  The
    product reads [fixed_count] itself, not [fixed_count || 0]: on an
    absent count it is [NaN], and [NaN.toFixed(1)] is ["NaN"]. *)
Definition fixed_rate_of (f : Fix) : Rate :=
  let total := total_of f in
  if (0 <? total)%Z
  then RateStr match to_number (fix_fixed_count f) with
               | Some n => toFixed1 (rate_percent n total)
               | None => "NaN"%string
               end
  else RateNum 0%Q.

Definition timestamp_of (f : Fix) : string :=
  (padStart 2 "0" (String_ (fix_hour f)) ++ ":" ++
   padStart 2 "0" (String_ (fix_min f)) ++ ":" ++
   padStart 2 "0" (String_ (fix_sec f)) ++ " UTC")%string.

(** The handler.  Its [console.log] line reads [latitude?.toFixed(7)] and
    [longitude?.toFixed(7)], which on a number, [null] or [undefined] does
    not throw, so every fix record reaches [broadcast] and [res.json]. *)
Definition post_position (readyState : ReadyStates) (now : string)
    (f : Fix) (s : Server) : Reply bool * Server * list Frame :=
  let fixed_rate := fixed_rate_of f in
  let roverState' :=
    {| latitude := fix_latitude f;
       longitude := fix_longitude f;
       altitude := fix_altitude f;
       h_acc := fix_h_acc f;
       v_acc := fix_v_acc f;
       fix_type := fix_fix_type f;
       carr_soln := fix_carr_soln f;
       num_sv := fix_num_sv f;
       rtcm_bytes := fix_rtcm_bytes f;
       fixed_count := fix_fixed_count f;
       float_count := fix_float_count f;
       fixed_rate := Val fixed_rate;
       battery_pct := fix_battery_pct f;
       firmware_version := fix_firmware_version f;
       timestamp := Val (timestamp_of f);
       last_update := Val now |} in
  (Json true,
   mkServer roverState' (marks s) (markCounter s) (clients s),
   broadcast readyState (clients s) (MsgPosition roverState')).

(** [GET /api/position] *)
Definition get_position (s : Server) : RoverState := roverState s.

(** ** The marks API *)

(** [m.id === id], where [id] is what [parseInt(req.params.id)] gave:
    [None] is [NaN], which is equal to nothing. *)
Definition id_is (id : option Z) (m : Mark) : bool :=
  match id with
  | Some n => (mark_id m =? n)%Z
  | None => false
  end.

(** [marks.findIndex(p)]; [None] is [-1]. *)
Fixpoint findIndex (p : Mark -> bool) (l : list Mark) : option nat :=
  match l with
  | [] => None
  | m :: rest =>
      if p m then Some O
      else match findIndex p rest with
           | Some i => Some (S i)
           | None => None
           end
  end.

(** [marks.splice(index, 1)]: the array without the element at [index]. *)
Fixpoint splice1 (index : nat) (l : list Mark) : list Mark :=
  match l, index with
  | [], _ => []
  | _ :: rest, O => rest
  | m :: rest, S i => m :: splice1 i rest
  end.

Definition set_label (label : string) (m : Mark) : Mark :=
  mkMark (mark_id m) label (mark_latitude m) (mark_longitude m)
         (mark_h_acc m) (mark_timestamp m) (mark_created_at m).

(** [mark.label = label] on the object [marks.find(p)] returned: the
    first element that satisfies [p] is updated in place. *)
Fixpoint assign_label (p : Mark -> bool) (label : string) (l : list Mark)
  : list Mark :=
  match l with
  | [] => []
  | m :: rest =>
      if p m then set_label label m :: rest
      else m :: assign_label p label rest
  end.

(** The object literal of [POST /api/marks], built after
    [markCounter++]. *)
Definition new_mark (now_iso : string) (now_ms : Z) (b : MarkBody)
    (markCounter : Z) : Mark :=
  {| mark_id := markCounter;
     mark_label := or_str (body_label b) ("RM_" ++ string_of_Z markCounter);
     mark_latitude := body_latitude b;
     mark_longitude := body_longitude b;
     mark_h_acc := or_null (body_h_acc b);
     mark_timestamp := now_iso;
     mark_created_at := now_ms |}.

(** [POST /api/marks].  The [console.log] line calls
    [latitude.toFixed(9)] and [longitude.toFixed(9)] after the mark is
    pushed and saved: on a [null] coordinate it throws, and neither
    [broadcast] nor [res.json] is reached. *)
Definition post_marks (readyState : ReadyStates) (now_iso : string)
    (now_ms : Z) (b : MarkBody) (s : Server)
  : Reply Mark * Server * list Frame :=
  if is_undefined (body_latitude b) || is_undefined (body_longitude b)
  then (Status 400 "latitude and longitude are required", s, [])
  else
    let markCounter' := (markCounter s + 1)%Z in
    let mark := new_mark now_iso now_ms b markCounter' in
    let s' := mkServer (roverState s) (marks s ++ [mark]) markCounter'
                       (clients s) in
    match body_latitude b, body_longitude b with
    | Val _, Val _ =>
        (Json mark, s', broadcast readyState (clients s) (MsgMarkCreate mark))
    | _, _ => (Threw "TypeError", s', [])
    end.

(** [GET /api/marks] *)
Definition get_marks (s : Server) : list Mark := marks s.

(** [DELETE /api/marks/:id] *)
Definition delete_mark (readyState : ReadyStates) (id : option Z)
    (s : Server) : Reply bool * Server * list Frame :=
  match findIndex (id_is id) (marks s) with
  | None => (Status 404 "Mark not found", s, [])
  | Some index =>
      (Json true,
       mkServer (roverState s) (splice1 index (marks s)) (markCounter s)
                (clients s),
       broadcast readyState (clients s) (MsgMarkDelete id))
  end.

(** [PATCH /api/marks/:id] *)
Definition patch_mark (readyState : ReadyStates) (id : option Z)
    (label : field string) (s : Server) : Reply Mark * Server * list Frame :=
  match find (id_is id) (marks s) with
  | None => (Status 404 "Mark not found", s, [])
  | Some mark =>
      let mark' := if truthy_str label then set_label (or_str label "") mark
                   else mark in
      let marks' := if truthy_str label
                    then assign_label (id_is id) (or_str label "") (marks s)
                    else marks s in
      (Json mark',
       mkServer (roverState s) marks' (markCounter s) (clients s),
       broadcast readyState (clients s) (MsgMarkUpdate mark'))
  end.

(** [DELETE /api/marks] *)
Definition clear_marks (readyState : ReadyStates) (s : Server)
  : Reply nat * Server * list Frame :=
  let count := List.length (marks s) in
  (Json count,
   mkServer (roverState s) [] 0%Z (clients s),
   broadcast readyState (clients s) MsgMarkClear).

(** ** Requests and runs *)

Inductive Request : Type :=
| Ingest (now : string) (f : Fix)
| Create (now_iso : string) (now_ms : Z) (b : MarkBody)
| Delete (id : option Z)
| Update (id : option Z) (label : field string)
| ClearAll
| Connect (c : ws)
| Close (c : ws).

(** How a handler ended, without the payload of its reply: with an HTTP
    status, with an exception, or, for a socket event, by returning. *)
Inductive Ending : Type :=
| Replied (code : Z)
| Uncaught
| Returned.

Definition ending {A} (r : Reply A) : Ending :=
  match r with
  | Json _ => Replied 200
  | Status code _ => Replied code
  | Threw _ => Uncaught
  end.

Definition handle (readyState : ReadyStates) (r : Request) (s : Server)
  : Ending * Server * list Frame :=
  match r with
  | Ingest now f =>
      let '(reply, s', out) := post_position readyState now f s in
      (ending reply, s', out)
  | Create now_iso now_ms b =>
      let '(reply, s', out) := post_marks readyState now_iso now_ms b s in
      (ending reply, s', out)
  | Delete id =>
      let '(reply, s', out) := delete_mark readyState id s in
      (ending reply, s', out)
  | Update id label =>
      let '(reply, s', out) := patch_mark readyState id label s in
      (ending reply, s', out)
  | ClearAll =>
      let '(reply, s', out) := clear_marks readyState s in
      (ending reply, s', out)
  | Connect c =>
      let '(s', out) := on_connection c s in (Returned, s', out)
  | Close c => (Returned, on_close c s, [])
  end.

(** The server after a sequence of requests, handled one at a time. *)
Fixpoint run (readyState : ReadyStates) (rs : list Request) (s : Server)
  : Server :=
  match rs with
  | [] => s
  | r :: rest => run readyState rest (snd (fst (handle readyState r s)))
  end.

(** The ids of the marks a request appends to [marks]: what [marks]
    holds after the handler beyond its length before. *)
Definition issued (readyState : ReadyStates) (r : Request) (s : Server)
  : list Z :=
  let s' := snd (fst (handle readyState r s)) in
  map mark_id (skipn (List.length (marks s)) (marks s')).

(** The ids issued by a sequence of requests, in order. *)
Fixpoint issued_ids (readyState : ReadyStates) (rs : list Request)
    (s : Server) : list Z :=
  match rs with
  | [] => []
  | r :: rest =>
      issued readyState r s ++
      issued_ids readyState rest (snd (fst (handle readyState r s)))
  end.

Definition is_clear (r : Request) : bool :=
  match r with ClearAll => true | _ => false end.

(** The requests that end in a call of [broadcast]: the position
    update and the four mark mutations. *)
Definition mutates (r : Request) : bool :=
  match r with
  | Ingest _ _ | Create _ _ _ | Delete _ | Update _ _ | ClearAll => true
  | Connect _ | Close _ => false
  end.

(** The server after one request, and the frames the request sent. *)
Definition next (readyState : ReadyStates) (r : Request) (s : Server) : Server :=
  snd (fst (handle readyState r s)).

Definition frames (readyState : ReadyStates) (r : Request) (s : Server)
  : list Frame :=
  snd (handle readyState r s).



(** The last element of [marks]. *)
Definition last_error_mark (l : list Mark) : option Mark :=
  match rev l with
  | [] => None
  | m :: _ => Some m
  end.

(** ** Sample data *)

Definition all_open : ReadyStates := fun _ => 1%Z.

(** Connection [2] is closing, the others are open. *)
Definition one_closing : ReadyStates :=
  fun c => if Nat.eqb c 2 then 2%Z else 1%Z.

(** [{latitude: 45.0, longitude: -122.0, carr_soln: 2, fixed_count: 10,
      float_count: 0, hour: 1, min: 0, sec: 0}] *)
Definition sample_fix : Fix :=
  {| fix_latitude := Val 45%Q;
     fix_longitude := Val (- (122))%Q;
     fix_altitude := Undefined;
     fix_h_acc := Undefined;
     fix_v_acc := Undefined;
     fix_fix_type := Undefined;
     fix_carr_soln := Val 2%Z;
     fix_num_sv := Undefined;
     fix_rtcm_bytes := Undefined;
     fix_fixed_count := Val 10%Z;
     fix_float_count := Val 0%Z;
     fix_battery_pct := Undefined;
     fix_firmware_version := Undefined;
     fix_hour := Val 1%Z;
     fix_min := Val 0%Z;
     fix_sec := Val 0%Z |}.

(** A fix sent while the receiver has no position yet:
    [{latitude: null, longitude: null, fix_type: 0}]. *)
Definition fix_without_position : Fix :=
  mkFix Null Null Undefined Undefined Undefined (Val 0%Z) Undefined
        Undefined Undefined Undefined Undefined Undefined Undefined
        Undefined Undefined Undefined.

(** [{latitude: 45.1, longitude: -122.1}] *)
Definition sample_body : MarkBody :=
  mkMarkBody (Val (451 # 10)) (Val (- (1221 # 10))%Q) Undefined Undefined.

(** [{latitude: 45.1, longitude: -122.1, h_acc: 0}] *)
Definition body_with_zero_h_acc : MarkBody :=
  mkMarkBody (Val (451 # 10)) (Val (- (1221 # 10))%Q) (Val 0%Q) Undefined.

(** [{longitude: -122.1}] *)
Definition body_without_latitude : MarkBody :=
  mkMarkBody Undefined (Val (- (1221 # 10))%Q) Undefined Undefined.

(** Create A, B, C, delete B, create D. *)
Definition sample_requests : list Request :=
  [ Create "2026-01-29T00:14:00.394Z" 1769645640394 sample_body;
    Create "2026-01-29T00:14:05.000Z" 1769645645000 sample_body;
    Create "2026-01-29T00:14:09.000Z" 1769645649000 sample_body;
    Delete (Some 2%Z);
    Create "2026-01-29T00:15:00.000Z" 1769645700000 sample_body ].

(** A server with three marks and three connections. *)
Definition sample_server : Server :=
  let s := run all_open sample_requests server0 in
  mkServer (roverState s) (marks s) (markCounter s) [1%nat; 2%nat; 3%nat].

(** ** What a create returns *)

(** A body that passes the test of [POST /api/marks]: both coordinates
    are present, as numbers or as [null]. *)
Definition passes_validation (b : MarkBody) : bool :=
  negb (is_undefined (body_latitude b) || is_undefined (body_longitude b)).

(** A body with two numbers for coordinates. *)
Definition has_coordinates (b : MarkBody) : bool :=
  match body_latitude b, body_longitude b with
  | Val _, Val _ => true
  | _, _ => false
  end.

(** The creates whose body passes validation, and those with two
    numbers for coordinates. *)
Definition is_accepted_create (r : Request) : bool :=
  match r with Create _ _ b => passes_validation b | _ => false end.

Definition is_answered_create (r : Request) : bool :=
  match r with Create _ _ b => has_coordinates b | _ => false end.

(** The id of the mark in the body of the reply to a request: that of
    [res.json(mark)] of [POST /api/marks], nothing for any other reply. *)
Definition returned (readyState : ReadyStates) (r : Request) (s : Server)
  : list Z :=
  match r with
  | Create now_iso now_ms b =>
      match fst (fst (post_marks readyState now_iso now_ms b s)) with
      | Json mark => [mark_id mark]
      | _ => []
      end
  | _ => []
  end.

(** The ids returned by a sequence of requests, in order. *)
Fixpoint returned_ids (readyState : ReadyStates) (rs : list Request)
    (s : Server) : list Z :=
  match rs with
  | [] => []
  | r :: rest =>
      returned readyState r s ++
      returned_ids readyState rest (snd (fst (handle readyState r s)))
  end.

(** The ids [c + 1, ..., c + n]. *)
Definition ids_after (c : Z) (n : nat) : list Z :=
  map (fun k => (c + Z.of_nat k)%Z) (seq 1 n).

(** [{latitude: null, longitude: -122.1}] *)
Definition body_with_null_latitude : MarkBody :=
  mkMarkBody Null (Val (- (1221 # 10))%Q) Undefined Undefined.

(** Create A, a create without latitude, a create with a null latitude,
    delete A, a rename of a missing id, create B. *)
Definition mixed_requests : list Request :=
  [ Create "2026-01-29T00:14:00.394Z" 1769645640394 sample_body;
    Create "2026-01-29T00:14:02.000Z" 1769645642000 body_without_latitude;
    Create "2026-01-29T00:14:05.000Z" 1769645645000 body_with_null_latitude;
    Delete (Some 1%Z);
    Update (Some 9%Z) (Val "BENCH_A"%string);
    Create "2026-01-29T00:15:00.000Z" 1769645700000 sample_body ].

(** ** Fixes with unusual counts *)

Definition fix_with_counts (fixed_count float_count : field Z) : Fix :=
  mkFix (Val 45%Q) (Val (- (122))%Q) Undefined Undefined Undefined Undefined
        (Val 2%Z) Undefined Undefined fixed_count float_count Undefined
        Undefined (Val 1%Z) (Val 0%Z) (Val 0%Z).



(** [{..., fixed_count: 3, float_count: 1997}]: the exact rate is 0.15,
    the double nearest to it lies below. *)
Definition fix_on_a_tie : Fix := fix_with_counts (Val 3%Z) (Val 1997%Z).

End Backend.

(* ================================================================== *)
(** * The geometry engine: [frontend/config.js] *)
(* ================================================================== *)

Module Geometry.

Local Open Scope R_scope.

(** [DREDGE_CONFIG], the numeric part. *)
Module DREDGE_CONFIG.
Module hull.
Definition width : R := 32.
Definition length : R := 40.
End hull.
Module antenna.
Definition x : R := 22.
Definition y : R := 30.
End antenna.
Module nozzle.
Definition offsetFromHull : R := 15 / 10.
Definition pivotY : R := 10.
Definition length : R := 50.
Definition diameter : R := 16 / 12.
Definition tipRadius : R := 2.
End nozzle.
Module tailings.
Definition width : R := 20.
Definition length : R := 6.
Definition offsetY : R := -6.
End tailings.
End DREDGE_CONFIG.

(** A coordinate pair, [[lon, lat]] for world points. *)
Definition Point : Type := (R * R)%type.

Definition feetToMeters (feet : R) : R := feet * (3048 / 10000).

Definition localToWorld (localX localY antennaLat antennaLon heading : R)
  : Point :=
  let offsetX := localX - DREDGE_CONFIG.antenna.x in
  let offsetY := localY - DREDGE_CONFIG.antenna.y in
  let offsetXm := feetToMeters offsetX in
  let offsetYm := feetToMeters offsetY in
  let headingRad := (heading * PI) / 180 in
  let rotatedX := offsetXm * cos headingRad + offsetYm * sin headingRad in
  let rotatedY := - offsetXm * sin headingRad + offsetYm * cos headingRad in
  let earthRadius := 6371000 in
  let dLat := (rotatedY / earthRadius) * (180 / PI) in
  let dLon := (rotatedX / earthRadius) * (180 / PI)
              / cos (antennaLat * PI / 180) in
  (antennaLon + dLon, antennaLat + dLat).

Definition getSuctionTipPosition (antennaLat antennaLon heading : R) : Point :=
  let tipX := DREDGE_CONFIG.hull.width + DREDGE_CONFIG.nozzle.offsetFromHull
              + (DREDGE_CONFIG.nozzle.diameter / 2) in
  let tipY := DREDGE_CONFIG.nozzle.pivotY + DREDGE_CONFIG.nozzle.length in
  localToWorld tipX tipY antennaLat antennaLon heading.

(** [generateTailingsZoneGeoJSON]: the ring of the polygon, closed by
    repeating its first vertex. *)
Definition generateTailingsZoneGeoJSON (antennaLat antennaLon heading : R)
  : list Point :=
  let hullCenterX := DREDGE_CONFIG.hull.width / 2 in
  let halfWidth := DREDGE_CONFIG.tailings.width / 2 in
  let offsetY := DREDGE_CONFIG.tailings.offsetY in
  let corners :=
    [ (hullCenterX - halfWidth, offsetY);
      (hullCenterX + halfWidth, offsetY);
      (hullCenterX + halfWidth, offsetY + DREDGE_CONFIG.tailings.length);
      (hullCenterX - halfWidth, offsetY + DREDGE_CONFIG.tailings.length) ] in
  let worldCoords :=
    map (fun c => localToWorld (fst c) (snd c) antennaLat antennaLon heading)
        corners in
  worldCoords ++ firstn 1 worldCoords.

End Geometry.

(* ================================================================== *)
(** * The trail recorder: [frontend/app.js] *)
(* ================================================================== *)

Module Dashboard.

Import Geometry.
Local Open Scope R_scope.

(** [Math.atan2(y, x)] on real arguments. *)
Definition atan2 (y x : R) : R :=
  if Rlt_dec 0 x then atan (y / x)
  else if Rlt_dec x 0
       then (if Rle_dec 0 y then atan (y / x) + PI else atan (y / x) - PI)
       else if Rlt_dec 0 y then PI / 2
            else if Rlt_dec y 0 then - (PI / 2) else 0.

Definition haversineDistance (lat1 lon1 lat2 lon2 : R) : R :=
  let R_ := 6371000 in
  let dLat := (lat2 - lat1) * PI / 180 in
  let dLon := (lon2 - lon1) * PI / 180 in
  let a := sin (dLat / 2) * sin (dLat / 2) +
           cos (lat1 * PI / 180) * cos (lat2 * PI / 180) *
           sin (dLon / 2) * sin (dLon / 2) in
  R_ * 2 * atan2 (sqrt a) (sqrt (1 - a)).

(** [{ latitude, longitude }] *)
Record Position : Type := mkPosition {
  latitude : R;
  longitude : R
}.

(** [this.trails] *)
Record Trails : Type := mkTrails {
  piloting : list Point;
  suction : list Point;
  tailings : list (list Point)
}.

(** The fields of a [RoverDashboard] that trail recording reads or
    writes. *)
Record RoverDashboard : Type := mkDashboard {
  currentPosition : option Position;
  heading : R;
  locationMode : string;
  testPosition : option Position;
  trails : Trails;
  minTrailDistance : R
}.

(** The fields as the assignments of the constructor set them
    ([app.js], lines 8 to 22).  The constructor ends with [this.init()],
    whose last step is [loadTrailsFromStorage()]: when [localStorage]
    holds no ['dredge-trails'] item, this is the state of the new
    dashboard; when it holds one, the new dashboard has the stored
    trails, and is [dashboard (Display.open item)] below. *)
Definition constructor : RoverDashboard :=
  mkDashboard None 0 "live" None (mkTrails [] [] []) (5 / 10).

(** The part of a [position] message that [updateDashboard] branches
    on. *)
Record PositionData : Type := mkData {
  data_latitude : field R;
  data_longitude : field R;
  data_altitude : field R;
  data_carr_soln : field Z
}.

Definition with_trails (t : Trails) (d : RoverDashboard) : RoverDashboard :=
  mkDashboard (currentPosition d) (heading d) (locationMode d)
              (testPosition d) t (minTrailDistance d).

Definition with_position (p : option Position) (d : RoverDashboard)
  : RoverDashboard :=
  mkDashboard p (heading d) (locationMode d) (testPosition d) (trails d)
              (minTrailDistance d).

(** The three [push] calls of [recordTrailPoint], for the current
    position [cur]. *)
Definition pushTrailPoint (cur : Position) (d : RoverDashboard)
  : RoverDashboard :=
  let t := trails d in
  with_trails
    (mkTrails
       (piloting t ++ [(longitude cur, latitude cur)])
       (suction t ++
          [getSuctionTipPosition (latitude cur) (longitude cur) (heading d)])
       (tailings t ++
          [generateTailingsZoneGeoJSON (latitude cur) (longitude cur)
                                       (heading d)]))
    d.

Definition recordTrailPoint (prevPos : option Position) (d : RoverDashboard)
  : RoverDashboard :=
  match currentPosition d with
  | None => d
  | Some cur =>
      match prevPos with
      | Some prev =>
          if Rlt_dec (haversineDistance (latitude prev) (longitude prev)
                                        (latitude cur) (longitude cur))
                     (minTrailDistance d)
          then d
          else pushTrailPoint cur d
      | None => pushTrailPoint cur d
      end
  end.

Definition clearTrails (d : RoverDashboard) : RoverDashboard :=
  with_trails (mkTrails [] [] []) d.

(** How a handler ended. *)
Inductive Completion : Type :=
| Normal
| TypeError.

(** [updateDashboard(data)], the position block.  [toFixed] is called on
    [data.latitude], [data.longitude] and, unless it is [null],
    [data.altitude]; on [undefined] the call throws before
    [currentPosition] is touched.  Outside live mode [currentPosition]
    is read as it stands, and reading a property of [null] throws. *)
Definition updateDashboard (data : PositionData) (d : RoverDashboard)
  : Completion * RoverDashboard :=
  match data_latitude data, data_longitude data with
  | Null, _ => (Normal, d)
  | _, Null => (Normal, d)
  | Val lat, Val lon =>
      if is_undefined (data_altitude data) then (TypeError, d)
      else
        let prevPos := currentPosition d in
        let live := String.eqb (locationMode d) "live" in
        let d1 := if live then with_position (Some (mkPosition lat lon)) d
                  else d in
        match currentPosition d1 with
        | None => (TypeError, d1)
        | Some _ =>
            match data_carr_soln data with
            | Val 2%Z => if live then (Normal, recordTrailPoint prevPos d1)
                         else (Normal, d1)
            | _ => (Normal, d1)
            end
        end
  | _, _ => (TypeError, d)
  end.

(** The [change] listener of the location selector. *)
Definition onLocationChange (value : string) (d : RoverDashboard)
  : RoverDashboard :=
  let d1 := mkDashboard (currentPosition d) (heading d) value
                        (testPosition d) (trails d) (minTrailDistance d) in
  if String.eqb value "nome"
  then
    let nome := mkPosition (64495336 / 1000000) (- (165402452 / 1000000)) in
    mkDashboard (Some nome) (heading d1) value (Some nome) (trails d1)
                (minTrailDistance d1)
  else
    mkDashboard (currentPosition d1) (heading d1) value None (trails d1)
                (minTrailDistance d1).

(** The [input] listener of the heading slider. *)
Definition onHeadingInput (value : R) (d : RoverDashboard) : RoverDashboard :=
  mkDashboard (currentPosition d) value (locationMode d) (testPosition d)
              (trails d) (minTrailDistance d).

(** What can happen to a dashboard. *)
Inductive Action : Type :=
| OnFix (data : PositionData)
| SetLocation (value : string)
| SetHeading (value : R)
| Clear.

Definition act (a : Action) (d : RoverDashboard) : RoverDashboard :=
  match a with
  | OnFix data => snd (updateDashboard data d)
  | SetLocation value => onLocationChange value d
  | SetHeading value => onHeadingInput value d
  | Clear => clearTrails d
  end.

Definition perform (l : list Action) (d : RoverDashboard) : RoverDashboard :=
  fold_left (fun d a => act a d) l d.

(** The three sequences have the same length. *)
Definition balanced (t : Trails) : Prop :=
  List.length (piloting t) = List.length (suction t) /\
  List.length (suction t) = List.length (tailings t).

(** ** Sample data *)

(** A fix as the rover reports it with an RTK-fixed solution. *)
Definition rtk_fixed (lat lon : R) : PositionData :=
  mkData (Val lat) (Val lon) (Val 0) (Val 2%Z).

(** Three fixes on the meridian 122 W: [fixA] at 45 N, [fixB] three
    millionths of a degree (about a third of a metre) north of it,
    [fixC] as far south of it, and [fixD] six millionths north. *)
Definition fixA : PositionData := rtk_fixed 45 (-122).
Definition fixB : PositionData := rtk_fixed (45 + 3 / 1000000) (-122).
Definition fixC : PositionData := rtk_fixed (45 - 3 / 1000000) (-122).
Definition fixD : PositionData := rtk_fixed (45 + 6 / 1000000) (-122).

End Dashboard.

(* ================================================================== *)
(** * The server, continued: [marks.json], the health check and the
      fix status *)
(* ================================================================== *)

Module Registry.

Import Backend.

(** The ids of the marks in the registry, in order. *)
Definition ids (s : Server) : list Z := map mark_id (marks s).

(** What [JSON.parse] of [marks.json] yields: an object whose two keys
    may be missing or [null] when the file was not written by
    [saveMarks]. *)
Record MarksFile : Type := mkMarksFile {
  file_marks : field (list Mark);
  file_markCounter : field Z
}.

(** The file system at [MARKS_FILE]: no file, a file that [JSON.parse]
    rejects, or a stored object. *)
Inductive Disk : Type :=
| NoFile
| Unreadable
| Stored (data : MarksFile).

(** [saveMarks()]: the object written is [{ marks, markCounter }].  The
    write is taken to succeed; when it throws, the handler logs the error
    and goes on with the state in memory. *)
Definition saveMarks (s : Server) : Disk :=
  Stored (mkMarksFile (Val (marks s)) (Val (markCounter s))).

(** [data.marks || []]: an array, even an empty one, is kept. *)
Definition marks_or_empty (x : field (list Mark)) : list Mark :=
  match x with
  | Val l => l
  | _ => []
  end.

(** [loadMarks()], run once at start-up.  Without a file nothing is
    assigned; a parse error is caught before anything is assigned. *)
Definition loadMarks (d : Disk) (s : Server) : Server :=
  match d with
  | NoFile => s
  | Unreadable => s
  | Stored data =>
      mkServer (roverState s) (marks_or_empty (file_marks data))
               (or_zero (file_markCounter data)) (clients s)
  end.

(** The server as it starts on a given disk. *)
Definition startup (d : Disk) : Server := loadMarks d server0.

(** Whether a request got as far as its [saveMarks()] call: the four mark
    handlers call it on every path that is not the early [return] with
    status 400 or 404; [POST /api/marks] calls it before the line that can
    throw. *)
Definition writes_file (r : Request) (e : Ending) : bool :=
  match r with
  | Create _ _ _ | Delete _ | Update _ _ | ClearAll =>
      match e with
      | Replied 200 => true
      | Uncaught => true
      | _ => false
      end
  | _ => false
  end.

(** One request on a server with its disk. *)
Definition handle_on_disk (readyState : ReadyStates) (r : Request)
    (sd : Server * Disk) : Server * Disk :=
  let '(e, s', _) := handle readyState r (fst sd) in
  (s', if writes_file r e then saveMarks s' else snd sd).

Definition run_on_disk (readyState : ReadyStates) (rs : list Request)
    (sd : Server * Disk) : Server * Disk :=
  fold_left (fun sd r => handle_on_disk readyState r sd) rs sd.

(** [GET /api/health]: the number of tracked connections and the time of
    the last update. *)
Definition get_health (s : Server) : nat * field string :=
  (List.length (clients s), last_update (roverState s)).

(** [getFixStatus(fix_type, carr_soln)] *)
Definition getFixStatus (fix_type carr_soln : field Z) : string :=
  match carr_soln with
  | Val 2%Z => "RTK FIXED"
  | Val 1%Z => "RTK FLOAT"
  | _ =>
      match fix_type with
      | Val 3%Z => "3D Fix"
      | Val 2%Z => "2D Fix"
      | _ => "No Fix"
      end
  end.

(** The ids in the registry increase along the list and lie between 1
    and the counter. *)
Definition well_numbered (s : Server) : Prop :=
  (0 <= markCounter s)%Z /\
  StronglySorted Z.lt (ids s) /\
  Forall (fun id => (0 < id <= markCounter s)%Z) (ids s).

(** Whether the last [Connect] or [Close] about connection [c] in a
    sequence of requests was a [Connect]; [before] is the answer without
    any. *)
Fixpoint connected (c : ws) (rs : list Request) (before : bool) : bool :=
  match rs with
  | [] => before
  | Connect c' :: rest =>
      connected c rest (if Nat.eqb c c' then true else before)
  | Close c' :: rest =>
      connected c rest (if Nat.eqb c c' then false else before)
  | _ :: rest => connected c rest before
  end.

(** The two decimal digits of a number below 100, as a clock shows
    them. *)
Definition two_digits (n : Z) : string :=
  let digit (k : Z) := ascii_of_nat (48 + Z.to_nat k) in
  String (digit (n / 10)%Z) (String (digit (n mod 10)%Z) EmptyString).

(** A mark without its label. *)
Definition unlabelled (m : Mark) : Mark := set_label "" m.

(** A file someone edited by hand: one mark, no counter. *)
Definition file_without_counter : Disk :=
  Stored (mkMarksFile
            (Val [mkMark 1 "RM_1" (Val 45%Q) (Val (- (122))%Q) Null "t" 0])
            Undefined).

End Registry.

(* ================================================================== *)
(** * The geometry engine, continued: the other shapes *)
(* ================================================================== *)

Module Shapes.

Import Geometry.
Local Open Scope R_scope.

(** [DREDGE_CONFIG.hullPoints] *)
Definition hullPoints : list Point := [(0, 0); (32, 0); (32, 40); (0, 40)].

(** [generateDredgeGeoJSON]: the ring of the hull polygon. *)
Definition generateDredgeGeoJSON (antennaLat antennaLon heading : R)
  : list Point :=
  let worldCoords :=
    map (fun c => localToWorld (fst c) (snd c) antennaLat antennaLon heading)
        hullPoints in
  worldCoords ++ firstn 1 worldCoords.

(** [generateNozzleGeoJSON]: the ring of the pipe rectangle. *)
Definition generateNozzleGeoJSON (antennaLat antennaLon heading : R)
  : list Point :=
  let pipeCenterX := DREDGE_CONFIG.hull.width
                     + DREDGE_CONFIG.nozzle.offsetFromHull
                     + (DREDGE_CONFIG.nozzle.diameter / 2) in
  let halfWidth := DREDGE_CONFIG.nozzle.diameter / 2 in
  let pivotY := DREDGE_CONFIG.nozzle.pivotY in
  let corners :=
    [ (pipeCenterX - halfWidth, pivotY);
      (pipeCenterX + halfWidth, pivotY);
      (pipeCenterX + halfWidth, pivotY + DREDGE_CONFIG.nozzle.length);
      (pipeCenterX - halfWidth, pivotY + DREDGE_CONFIG.nozzle.length) ] in
  let worldCoords :=
    map (fun c => localToWorld (fst c) (snd c) antennaLat antennaLon heading)
        corners in
  worldCoords ++ firstn 1 worldCoords.

(** The local point pushed for loop index [i] of
    [generateSuctionTipGeoJSON]. *)
Definition tipCirclePoint (i : nat) : Point :=
  let tipCenterX := DREDGE_CONFIG.hull.width
                    + DREDGE_CONFIG.nozzle.offsetFromHull
                    + (DREDGE_CONFIG.nozzle.diameter / 2) in
  let tipCenterY := DREDGE_CONFIG.nozzle.pivotY + DREDGE_CONFIG.nozzle.length in
  let angle := (INR i / 24) * 2 * PI in
  (tipCenterX + DREDGE_CONFIG.nozzle.tipRadius * cos angle,
   tipCenterY + DREDGE_CONFIG.nozzle.tipRadius * sin angle).

(** [generateSuctionTipGeoJSON]: the loop runs [i] from 0 to 24
    inclusive. *)
Definition generateSuctionTipGeoJSON (antennaLat antennaLon heading : R)
  : list Point :=
  map (fun i => localToWorld (fst (tipCirclePoint i)) (snd (tipCirclePoint i))
                             antennaLat antennaLon heading)
      (seq 0 25).

(** [generateAllFeaturesGeoJSON]: the rings of its two features. *)
Definition generateAllFeaturesGeoJSON (antennaLat antennaLon heading : R)
  : list (list Point) :=
  [ generateNozzleGeoJSON antennaLat antennaLon heading;
    generateTailingsZoneGeoJSON antennaLat antennaLon heading ].

(** The heading indicator of [updateDredgePosition]: from the middle of
    the bow to a point 20 feet ahead of it. *)
Definition headingIndicator (latitude longitude heading : R) : list Point :=
  let bowCenter :=
    localToWorld (DREDGE_CONFIG.hull.width / 2) DREDGE_CONFIG.hull.length
                 latitude longitude heading in
  let bowExtended :=
    localToWorld (DREDGE_CONFIG.hull.width / 2)
                 (DREDGE_CONFIG.hull.length + 20)
                 latitude longitude heading in
  [bowCenter; bowExtended].

(** [generateSimpleCircleGeoJSON(lat, lon, radiusFeet)] of [app.js]: the
    loop runs [i] from 0 to 32 inclusive. *)
Definition generateSimpleCircleGeoJSON (lat lon radiusFeet : R) : list Point :=
  let radiusMeters := feetToMeters radiusFeet in
  map (fun i =>
         let angle := (INR i / 32) * 2 * PI in
         let dx := radiusMeters * cos angle in
         let dy := radiusMeters * sin angle in
         let earthRadius := 6371000 in
         let dLat := (dy / earthRadius) * (180 / PI) in
         let dLon := (dx / earthRadius) * (180 / PI) / cos (lat * PI / 180) in
         (lon + dLon, lat + dLat))
      (seq 0 33).

(** [generateCrosshairGeoJSON(lat, lon, radiusFeet)] of [app.js]: the
    horizontal and the vertical line. *)
Definition generateCrosshairGeoJSON (lat lon radiusFeet : R)
  : list (list Point) :=
  let radiusMeters := feetToMeters radiusFeet in
  let earthRadius := 6371000 in
  let dLat := (radiusMeters / earthRadius) * (180 / PI) in
  let dLon := (radiusMeters / earthRadius) * (180 / PI)
              / cos (lat * PI / 180) in
  [ [(lon - dLon, lat); (lon + dLon, lat)];
    [(lon, lat - dLat); (lon, lat + dLat)] ].

(** How far north and east of the antenna a world point lies, in metres
    on the sphere of radius 6371000 that [localToWorld] uses: the degrees
    of latitude and longitude turned back into arc lengths. *)
Definition north_metres (antennaLat : R) (p : Point) : R :=
  (snd p - antennaLat) * (PI / 180) * 6371000.

Definition east_metres (antennaLat antennaLon : R) (p : Point) : R :=
  (fst p - antennaLon) * (PI / 180) * 6371000 * cos (antennaLat * PI / 180).

(** A ring is closed when it ends where it starts. *)
Definition closed_ring (ring : list Point) : Prop :=
  exists p middle, ring = p :: middle ++ [p].

End Shapes.

(* ================================================================== *)
(** * The dashboard, continued: status, the socket, local storage *)
(* ================================================================== *)

Module Display.

Import Geometry Dashboard.
Local Open Scope R_scope.

(** [getFixStatus(fixType, carrSoln)] *)
Definition getFixStatus (fixType carrSoln : field Z) : string :=
  match carrSoln with
  | Val 2%Z => "RTK FIXED"
  | Val 1%Z => "RTK FLOAT"
  | _ =>
      match fixType with
      | Val 3%Z => "3D Fix"
      | Val 2%Z => "2D Fix"
      | _ => "No Fix"
      end
  end.

(** [getFixClass(carrSoln)] *)
Definition getFixClass (carrSoln : field Z) : string :=
  match carrSoln with
  | Val 2%Z => "rtk-fixed"
  | Val 1%Z => "rtk-float"
  | _ => "no-fix"
  end.

(** A number that went through [JSON.stringify] on the server and
    [JSON.parse] in the browser: a key whose value is [undefined] is left
    out by [stringify] and so reads [undefined] again. *)
Definition wire_number (x : field Q) : field R :=
  match x with
  | Undefined => Undefined
  | Null => Null
  | Val q => Val (Q2R q)
  end.

(** The [data] of a [position] message, as [updateDashboard] reads it. *)
Definition wire (st : Backend.RoverState) : PositionData :=
  mkData (wire_number (Backend.latitude st))
         (wire_number (Backend.longitude st))
         (wire_number (Backend.altitude st))
         (Backend.carr_soln st).

(** The [[lon, lat]] a position message reports, if it reports one. *)
Definition reported (a : Action) : list Point :=
  match a with
  | OnFix data =>
      match data_latitude data, data_longitude data with
      | Val lat, Val lon => [(lon, lat)]
      | _, _ => []
      end
  | _ => []
  end.

(** [l1] is [l2] with some elements left out. *)
Inductive Subseq {A : Type} : list A -> list A -> Prop :=
| Subseq_nil : Subseq [] []
| Subseq_skip (x : A) (l1 l2 : list A) : Subseq l1 l2 -> Subseq l1 (x :: l2)
| Subseq_take (x : A) (l1 l2 : list A) :
    Subseq l1 l2 -> Subseq (x :: l1) (x :: l2).

Definition is_heading_change (a : Action) : bool :=
  match a with SetHeading _ => true | _ => false end.

(** The suction point and the tailings ring that belong to a piloting
    point at a given heading. *)
Definition suctionOf (heading : R) (p : Point) : Point :=
  getSuctionTipPosition (snd p) (fst p) heading.

Definition tailingsOf (heading : R) (p : Point) : list Point :=
  generateTailingsZoneGeoJSON (snd p) (fst p) heading.

(** Suction and tailings trails are the piloting trail mapped point by
    point at heading [h]. *)
Definition images (h : R) (t : Trails) : Prop :=
  suction t = map (suctionOf h) (piloting t) /\
  tailings t = map (tailingsOf h) (piloting t).

(** ** Local storage *)

(** The page: the dashboard, whether [this._saveTimeout] holds a timer,
    and the item ['dredge-trails'] of [localStorage] (what
    [JSON.stringify(this.trails)] wrote, read back by [JSON.parse]). *)
Record Page : Type := mkPage {
  dashboard : RoverDashboard;
  saveTimeout : bool;
  storage : option Trails
}.

(** [saveTrailsToStorage()]: a timer is set unless one is pending. *)
Definition saveTrailsToStorage (p : Page) : Page :=
  if saveTimeout p then p
  else mkPage (dashboard p) true (storage p).

(** The callback of that timer, five seconds later. *)
Definition onSaveTimeout (p : Page) : Page :=
  if saveTimeout p
  then mkPage (dashboard p) false (Some (trails (dashboard p)))
  else p.

(** [loadTrailsFromStorage()] *)
Definition loadTrailsFromStorage (p : Page) : Page :=
  match storage p with
  | Some saved => mkPage (with_trails saved (dashboard p)) (saveTimeout p)
                         (storage p)
  | None => p
  end.

(** Opening the page on a given storage: the constructor, then [init],
    whose last step is [loadTrailsFromStorage]. *)
Definition open (item : option Trails) : Page :=
  loadTrailsFromStorage (mkPage constructor false item).

(** Reloading: the timers are gone, [localStorage] stays. *)
Definition reload (p : Page) : Page := open (storage p).

(** What can happen to a page: an [Action] of the dashboard, or the save
    timer firing. *)
Inductive PageEvent : Type :=
| Do (a : Action)
| SaveTimerFires.

(** [recordTrailPoint] ends with [saveTrailsToStorage()] exactly when it
    pushed; [clearTrails] ends with [localStorage.removeItem]. *)
Definition on_event (e : PageEvent) (p : Page) : Page :=
  match e with
  | Do Clear => mkPage (clearTrails (dashboard p)) (saveTimeout p) None
  | Do a =>
      let d' := act a (dashboard p) in
      let pushed :=
        negb (List.length (piloting (trails d'))
              =? List.length (piloting (trails (dashboard p))))%nat in
      let p' := mkPage d' (saveTimeout p) (storage p) in
      if pushed then saveTrailsToStorage p' else p'
  | SaveTimerFires => onSaveTimeout p
  end.

Definition events (l : list PageEvent) (p : Page) : Page :=
  fold_left (fun p e => on_event e p) l p.

(** With no save timer pending, a reload shows the trails the page
    has. *)
Definition stored_is_current (p : Page) : Prop :=
  saveTimeout p = false ->
  trails (dashboard (reload p)) = trails (dashboard p).

(** ** Runs from any state *)

Definition is_clearing (a : Action) : bool :=
  match a with Clear => true | _ => false end.

(** What a run leaves of a trail it started with: all of it, or nothing
    once [clearTrails] ran. *)
Definition kept {A : Type} (l : list Action) (x : list A) : list A :=
  if existsb is_clearing l then [] else x.

(** Trails as an earlier session left them in [localStorage]: one point,
    recorded at heading 0. *)
Definition stored_trails : Trails :=
  mkTrails [(1, 2)] [suctionOf 0 (1, 2)] [tailingsOf 0 (1, 2)].

(** [{latitude: 45.0, longitude: -122.0, altitude: 12.5, carr_soln: 2}] *)
Definition fix_with_altitude : Backend.Fix :=
  Backend.mkFix (Val 45%Q) (Val (- (122))%Q) (Val (125 # 10)%Q) Undefined
                Undefined Undefined (Val 2%Z) Undefined Undefined Undefined
                Undefined Undefined Undefined Undefined Undefined Undefined.

End Display.

(* ================================================================== *)
(** * Properties of the server *)
(* ================================================================== *)

Module BackendFacts.

Import Backend.

(** ** Lists *)

Lemma skipn_own_length {A} (l l' : list A) :
  skipn (List.length l) (l ++ l') = l'.
Proof. induction l as [|x l IH]; simpl; auto. Qed.

Lemma skipn_short {A} (n : nat) (l : list A) :
  (List.length l <= n)%nat -> skipn n l = [].
Proof.
  revert n; induction l as [|x l IH]; intros [|n] H; simpl in *; auto.
  - lia.
  - apply IH; lia.
Qed.

Lemma splice1_length (i : nat) (l : list Mark) :
  (List.length (splice1 i l) <= List.length l)%nat.
Proof.
  revert i; induction l as [|m l IH]; intros [|i]; simpl; auto.
  specialize (IH i); lia.
Qed.

Lemma assign_label_length (p : Mark -> bool) (label : string) (l : list Mark) :
  List.length (assign_label p label l) = List.length l.
Proof.
  induction l as [|m l IH]; simpl; auto.
  destruct (p m); simpl; auto.
Qed.

(** [findIndex] and [find] fail exactly when no element passes. *)
Lemma findIndex_none (p : Mark -> bool) (l : list Mark) :
  (forall m, In m l -> p m = false) -> findIndex p l = None.
Proof.
  induction l as [|m l IH]; simpl; intros H; auto.
  rewrite (H m) by auto. rewrite IH; auto.
Qed.

Lemma find_none (p : Mark -> bool) (l : list Mark) :
  (forall m, In m l -> p m = false) -> find p l = None.
Proof.
  induction l as [|m l IH]; simpl; intros H; auto.
  rewrite (H m) by auto. apply IH; auto.
Qed.

Lemma id_is_absent (id : option Z) (l : list Mark) :
  (forall m, In m l -> Some (mark_id m) <> id) ->
  forall m, In m l -> id_is id m = false.
Proof.
  intros H m Hm. destruct id as [n|]; simpl; auto.
  apply Z.eqb_neq. intros E. apply (H m Hm). now rewrite E.
Qed.

(** ** One request *)


(** Only [POST /api/marks] moves the counter up, by one, and only
    [DELETE /api/marks] moves it down. *)
Lemma step_counter (rs : ReadyStates) (r : Request) (s : Server) :
  is_clear r = false ->
  (issued rs r s = [] /\ markCounter (next rs r s) = markCounter s) \/
  (issued rs r s = [(markCounter s + 1)%Z] /\
   markCounter (next rs r s) = (markCounter s + 1)%Z).
Proof.
  intros Hc. unfold issued, next.
  destruct r as [now f|now_iso now_ms b|id|id label| |c|c];
    simpl in *; try discriminate.
  - left. rewrite skipn_all. auto.
  - unfold post_marks.
    destruct (is_undefined (body_latitude b) || is_undefined (body_longitude b)).
    + left. simpl. rewrite skipn_all. auto.
    + right.
      destruct (body_latitude b), (body_longitude b); simpl;
        rewrite skipn_own_length; auto.
  - left. unfold delete_mark.
    destruct (findIndex (id_is id) (marks s)) as [i|]; simpl.
    + rewrite skipn_short by apply splice1_length. auto.
    + rewrite skipn_all. auto.
  - left. unfold patch_mark.
    destruct (find (id_is id) (marks s)) as [m|]; simpl.
    + destruct (truthy_str label).
      * rewrite skipn_short by (rewrite assign_label_length; lia). auto.
      * rewrite skipn_all. auto.
    + rewrite skipn_all. auto.
  - left. unfold on_connection. simpl. rewrite skipn_all. auto.
  - left. rewrite skipn_all. auto.
Qed.

Lemma issued_ids_increasing (rs : ReadyStates) (reqs : list Request) :
  forall s, existsb is_clear reqs = false ->
    StronglySorted Z.lt (issued_ids rs reqs s) /\
    Forall (fun id => (markCounter s < id)%Z) (issued_ids rs reqs s).
Proof.
  induction reqs as [|r reqs IH]; intros s Hc; simpl.
  - split; constructor.
  - simpl in Hc. apply orb_false_iff in Hc. destruct Hc as [Hr Hrest].
    destruct (IH (next rs r s) Hrest) as [Hsorted Hbound].
    fold (next rs r s).
    destruct (step_counter rs r s Hr) as [[Hi Hn]|[Hi Hn]];
      rewrite Hi; rewrite Hn in Hbound; simpl.
    + split; auto.
    + split.
      * constructor; auto.
      * constructor; [lia|].
        eapply Forall_impl; [|exact Hbound]. simpl. intros; lia.
Qed.

Lemma issued_ids_first (rs : ReadyStates) (reqs : list Request) :
  forall s id ids, existsb is_clear reqs = false ->
    issued_ids rs reqs s = id :: ids -> id = (markCounter s + 1)%Z.
Proof.
  induction reqs as [|r reqs IH]; intros s id ids Hc; simpl.
  - discriminate.
  - simpl in Hc. apply orb_false_iff in Hc. destruct Hc as [Hr Hrest].
    fold (next rs r s).
    destruct (step_counter rs r s Hr) as [[Hi Hn]|[Hi Hn]]; rewrite Hi; simpl.
    + intros H. rewrite <- Hn. eapply IH; eauto.
    + intros H. now inversion H.
Qed.

(** ** The mark registry *)

Example create_scenario :
  issued_ids all_open sample_requests server0 = [1; 2; 3; 4]%Z /\
  map mark_id (marks (run all_open sample_requests server0)) = [1; 3; 4]%Z /\
  map mark_label (marks (run all_open sample_requests server0))
    = ["RM_1"; "RM_3"; "RM_4"]%string.
Proof. repeat split. Qed.

Example update_scenario :
  let s := next all_open (Create "t" 0 sample_body) server0 in
  map (fun m => (mark_id m, mark_label m))
      (marks (next all_open (Update (Some 1%Z) (Val "BENCH_A"%string)) s))
    = [(1%Z, "BENCH_A"%string)].
Proof. reflexivity. Qed.

(** What a request other than a clear-all does to the marks, the
    counter and the reply: a create that passes validation appends one
    mark under the next number, and answers with that mark when both
    coordinates are numbers; nothing else appends or answers with an id. *)
Lemma step_issued (rs : ReadyStates) (r : Request) (s : Server) :
  is_clear r = false ->
  issued rs r s
    = (if is_accepted_create r then [(markCounter s + 1)%Z] else []) /\
  markCounter (next rs r s)
    = (if is_accepted_create r then (markCounter s + 1)%Z else markCounter s) /\
  returned rs r s
    = (if is_answered_create r then [(markCounter s + 1)%Z] else []).
Proof.
  intros Hc. unfold issued, next, returned.
  destruct r as [now f|now_iso now_ms b|id|id label| |c|c];
    simpl in *; try discriminate.
  - rewrite skipn_all. auto.
  - unfold post_marks, passes_validation, has_coordinates.
    destruct (body_latitude b), (body_longitude b); simpl;
      rewrite ?skipn_all, ?skipn_own_length; auto.
  - unfold delete_mark.
    destruct (findIndex (id_is id) (marks s)) as [i|]; simpl.
    + rewrite skipn_short by apply splice1_length. auto.
    + rewrite skipn_all. auto.
  - unfold patch_mark.
    destruct (find (id_is id) (marks s)) as [m|]; simpl.
    + destruct (truthy_str label).
      * rewrite skipn_short by (rewrite assign_label_length; lia). auto.
      * rewrite skipn_all. auto.
    + rewrite skipn_all. auto.
  - unfold on_connection. simpl. rewrite skipn_all. auto.
  - rewrite skipn_all. auto.
Qed.

Lemma has_coordinates_passes (b : MarkBody) :
  has_coordinates b = true -> passes_validation b = true.
Proof.
  unfold has_coordinates, passes_validation.
  destruct (body_latitude b), (body_longitude b); simpl; auto.
Qed.

Lemma ids_after_cons (c : Z) (n : nat) :
  ids_after c (S n) = (c + 1)%Z :: ids_after (c + 1) n.
Proof.
  unfold ids_after. simpl. f_equal.
  rewrite <- seq_shift, map_map. apply map_ext. intros k. lia.
Qed.

(** Without a clear-all the ids given out are the next numbers after the
    counter, one for each create that passes validation. *)
Lemma issued_ids_exact (rs : ReadyStates) (reqs : list Request) :
  forall s, existsb is_clear reqs = false ->
    issued_ids rs reqs s
      = ids_after (markCounter s)
                  (List.length (filter is_accepted_create reqs)).
Proof.
  induction reqs as [|r reqs IH]; intros s Hc; simpl.
  - reflexivity.
  - simpl in Hc. apply orb_false_iff in Hc. destruct Hc as [Hr Hrest].
    fold (next rs r s).
    destruct (step_issued rs r s Hr) as (Hi & Hn & _).
    rewrite Hi, (IH _ Hrest), Hn.
    destruct (is_accepted_create r); simpl List.length.
    + now rewrite ids_after_cons.
    + reflexivity.
Qed.

(** The ids in the replies: increasing, above the counter, one for each
    create with two numbers for coordinates, and each of them the id of a
    mark that was stored. *)
Lemma returned_ids_increasing (rs : ReadyStates) (reqs : list Request) :
  forall s, existsb is_clear reqs = false ->
    StronglySorted Z.lt (returned_ids rs reqs s) /\
    Forall (fun id => (markCounter s < id)%Z) (returned_ids rs reqs s) /\
    List.length (returned_ids rs reqs s)
      = List.length (filter is_answered_create reqs) /\
    incl (returned_ids rs reqs s) (issued_ids rs reqs s).
Proof.
  induction reqs as [|r reqs IH]; intros s Hc; simpl.
  - repeat split; try constructor. apply incl_refl.
  - simpl in Hc. apply orb_false_iff in Hc. destruct Hc as [Hr Hrest].
    fold (next rs r s).
    destruct (IH (next rs r s) Hrest) as (Hsorted & Hbound & Hlen & Hincl).
    destruct (step_issued rs r s Hr) as (Hi & Hn & Hret).
    rewrite Hi, Hret.
    assert (Hle : (markCounter s <= markCounter (next rs r s))%Z)
      by (rewrite Hn; destruct (is_accepted_create r); lia).
    assert (Hans : is_answered_create r = true -> is_accepted_create r = true).
    { destruct r; simpl; try discriminate. apply has_coordinates_passes. }
    destruct (is_answered_create r) eqn:Ea.
    + rewrite (Hans eq_refl) in *. simpl. rewrite Hn in Hbound.
      split; [|split; [|split]].
      * constructor; auto.
      * constructor; [lia|].
        eapply Forall_impl; [|exact Hbound]. simpl. intros; lia.
      * now rewrite Hlen.
      * intros x [Hx|Hx]; [left; exact Hx | right; apply Hincl; exact Hx].
    + simpl. split; [|split; [|split]]; auto.
      * eapply Forall_impl; [|exact Hbound]. simpl. intros; lia.
      * intros x Hx. apply in_or_app. right. apply Hincl; exact Hx.
Qed.

(** A create with two numbers for coordinates answers with the mark it
    stored, numbered one above the counter. *)
Lemma create_returns (rs : ReadyStates) (now_iso : string) (now_ms : Z)
    (b : MarkBody) (s : Server) :
  has_coordinates b = true ->
  exists m,
    fst (fst (post_marks rs now_iso now_ms b s)) = Json m /\
    mark_id m = (markCounter s + 1)%Z /\
    marks (next rs (Create now_iso now_ms b) s) = marks s ++ [m] /\
    markCounter (next rs (Create now_iso now_ms b) s) = (markCounter s + 1)%Z.
Proof.
  intros H. exists (new_mark now_iso now_ms b (markCounter s + 1)).
  unfold next, has_coordinates in *. simpl. unfold post_marks.
  destruct (body_latitude b), (body_longitude b); try discriminate.
  simpl. auto.
Qed.

Example mixed_scenario :
  issued_ids one_closing mixed_requests sample_server = [5; 6; 7]%Z /\
  returned_ids one_closing mixed_requests sample_server = [5; 7]%Z /\
  map mark_id (marks (run one_closing mixed_requests sample_server))
    = [3; 4; 5; 6; 7]%Z /\
  issued_ids one_closing (ClearAll :: mixed_requests) sample_server
    = [1; 2; 3]%Z /\
  returned_ids one_closing (ClearAll :: mixed_requests) sample_server
    = [1; 3]%Z.
Proof. repeat split. Qed.

(** C3.  Create yields strictly increasing ids between two clears, and
    the first create after a clear gets id 1.  From every server state
    [s], in every sequence of requests without a clear-all: each create
    that passes validation stores a mark under the next number, so that
    the ids given out are exactly [counter + 1, counter + 2, ...], one
    for each such create; they are strictly increasing in creation order
    and exceed the counter the sequence started from, whatever deletes
    and renames come in between, so that no id is given twice; the ids
    in the replies are strictly increasing as well, there is one for each
    create with two numbers for coordinates, and each is the id of a mark
    that was stored; such a create returns the very mark it appended,
    numbered [counter + 1], and moves the counter there.  A clear-all
    puts the counter back to zero and empties the marks; the ids given
    out after it are [1, 2, ...], the first of them 1, and a create with
    two numbers for coordinates that follows the clear-all returns and
    stores a mark with id 1. *)
Theorem mark_ids_strictly_monotonic
    (rs : ReadyStates) (reqs : list Request) (s : Server) :
  existsb is_clear reqs = false ->
  issued_ids rs reqs s
    = ids_after (markCounter s)
                (List.length (filter is_accepted_create reqs)) /\
  StronglySorted Z.lt (issued_ids rs reqs s) /\
  Forall (fun id => (markCounter s < id)%Z) (issued_ids rs reqs s) /\
  StronglySorted Z.lt (returned_ids rs reqs s) /\
  List.length (returned_ids rs reqs s)
    = List.length (filter is_answered_create reqs) /\
  incl (returned_ids rs reqs s) (issued_ids rs reqs s) /\
  (forall now_iso now_ms b, has_coordinates b = true ->
     exists m,
       fst (fst (post_marks rs now_iso now_ms b s)) = Json m /\
       mark_id m = (markCounter s + 1)%Z /\
       marks (next rs (Create now_iso now_ms b) s) = marks s ++ [m] /\
       markCounter (next rs (Create now_iso now_ms b) s)
         = (markCounter s + 1)%Z) /\
  markCounter (next rs ClearAll s) = 0%Z /\
  marks (next rs ClearAll s) = [] /\
  issued_ids rs (ClearAll :: reqs) s
    = ids_after 0 (List.length (filter is_accepted_create reqs)) /\
  (forall id ids, issued_ids rs (ClearAll :: reqs) s = id :: ids -> id = 1%Z) /\
  (forall now_iso now_ms b, has_coordinates b = true ->
     exists m,
       fst (fst (post_marks rs now_iso now_ms b (next rs ClearAll s)))
         = Json m /\
       mark_id m = 1%Z /\
       marks (next rs (Create now_iso now_ms b) (next rs ClearAll s)) = [m]).
Proof.
  intros Hc.
  destruct (issued_ids_increasing rs reqs s Hc) as [Hsorted Hbound].
  destruct (returned_ids_increasing rs reqs s Hc) as (Hrs & _ & Hrl & Hri).
  assert (E : issued rs ClearAll s = [])
    by (unfold issued; simpl; now rewrite skipn_nil).
  split; [apply issued_ids_exact; exact Hc|].
  split; [exact Hsorted|]. split; [exact Hbound|].
  split; [exact Hrs|]. split; [exact Hrl|]. split; [exact Hri|].
  split; [intros now_iso now_ms b Hb; apply create_returns; exact Hb|].
  split; [reflexivity|]. split; [reflexivity|].
  split; [|split].
  - simpl. rewrite E. simpl.
    fold (next rs ClearAll s). now rewrite (issued_ids_exact rs reqs _ Hc).
  - intros id ids H. simpl in H. rewrite E in H. simpl in H.
    apply (issued_ids_first rs reqs _ _ _ Hc) in H. simpl in H. lia.
  - intros now_iso now_ms b Hb.
    destruct (create_returns rs now_iso now_ms b (next rs ClearAll s) Hb)
      as (m & H1 & H2 & H3 & _).
    exists m. split; [exact H1|]. split; [exact H2|]. exact H3.
Qed.

Lemma mark_ids_strictly_monotonic_witness :
  existsb is_clear mixed_requests = false /\
  (issued_ids one_closing mixed_requests sample_server
     = ids_after (markCounter sample_server)
                 (List.length (filter is_accepted_create mixed_requests)) /\
   StronglySorted Z.lt (issued_ids one_closing mixed_requests sample_server) /\
   Forall (fun id => (markCounter sample_server < id)%Z)
          (issued_ids one_closing mixed_requests sample_server) /\
   StronglySorted Z.lt (returned_ids one_closing mixed_requests sample_server) /\
   List.length (returned_ids one_closing mixed_requests sample_server)
     = List.length (filter is_answered_create mixed_requests) /\
   incl (returned_ids one_closing mixed_requests sample_server)
        (issued_ids one_closing mixed_requests sample_server) /\
   (forall now_iso now_ms b, has_coordinates b = true ->
      exists m,
        fst (fst (post_marks one_closing now_iso now_ms b sample_server))
          = Json m /\
        mark_id m = (markCounter sample_server + 1)%Z /\
        marks (next one_closing (Create now_iso now_ms b) sample_server)
          = marks sample_server ++ [m] /\
        markCounter (next one_closing (Create now_iso now_ms b) sample_server)
          = (markCounter sample_server + 1)%Z) /\
   markCounter (next one_closing ClearAll sample_server) = 0%Z /\
   marks (next one_closing ClearAll sample_server) = [] /\
   issued_ids one_closing (ClearAll :: mixed_requests) sample_server
     = ids_after 0 (List.length (filter is_accepted_create mixed_requests)) /\
   (forall id ids,
      issued_ids one_closing (ClearAll :: mixed_requests) sample_server
        = id :: ids -> id = 1%Z) /\
   (forall now_iso now_ms b, has_coordinates b = true ->
      exists m,
        fst (fst (post_marks one_closing now_iso now_ms b
                    (next one_closing ClearAll sample_server))) = Json m /\
        mark_id m = 1%Z /\
        marks (next one_closing (Create now_iso now_ms b)
                 (next one_closing ClearAll sample_server)) = [m])).
Proof.
  split; [reflexivity|].
  apply (mark_ids_strictly_monotonic one_closing mixed_requests sample_server).
  reflexivity.
Defined.

(** C6.  Errors of the mark registry change nothing: a create whose
    latitude or longitude is missing is answered with status 400 (the
    validation error), and a delete or a rename of an id that no mark
    carries is answered with status 404 (not found); in all three cases
    the marks, the counter and the rest of the server state are as before
    and nothing is broadcast. *)
Theorem mark_errors_atomic
    (rs : ReadyStates) (now_iso : string) (now_ms : Z) (b : MarkBody)
    (id : option Z) (label : field string) (s : Server) :
  body_latitude b = Undefined \/ body_longitude b = Undefined ->
  (forall m, In m (marks s) -> Some (mark_id m) <> id) ->
  post_marks rs now_iso now_ms b s
    = (Status 400 "latitude and longitude are required", s, []) /\
  delete_mark rs id s = (Status 404 "Mark not found", s, []) /\
  patch_mark rs id label s = (Status 404 "Mark not found", s, []).
Proof.
  intros Hb Hid.
  assert (Hp : forall m, In m (marks s) -> id_is id m = false)
    by (apply id_is_absent; exact Hid).
  repeat split.
  - unfold post_marks.
    destruct Hb as [H|H]; rewrite H; simpl; auto.
    now rewrite orb_true_r.
  - unfold delete_mark. now rewrite (findIndex_none _ _ Hp).
  - unfold patch_mark. now rewrite (find_none _ _ Hp).
Qed.

Lemma mark_errors_atomic_witness :
  post_marks one_closing "t" 0 body_without_latitude sample_server
    = (Status 400 "latitude and longitude are required", sample_server, []) /\
  delete_mark one_closing (Some 2%Z) sample_server
    = (Status 404 "Mark not found", sample_server, []) /\
  patch_mark one_closing (Some 2%Z) (Val "BENCH_A"%string) sample_server
    = (Status 404 "Mark not found", sample_server, []).
Proof.
  apply (mark_errors_atomic one_closing "t" 0 body_without_latitude
           (Some 2%Z) (Val "BENCH_A"%string) sample_server).
  - left. reflexivity.
  - intros m Hm. simpl in Hm.
    destruct Hm as [Hm|[Hm|[Hm|[]]]]; subst m; simpl; discriminate.
Defined.

(** ** The position store *)



(** ** Rounding to a double *)











(** ** [toFixed(1)] *)



Example rate_of_readme_payload :
  toFixed1 (rate_percent (inject_Z 200) 205) = "97.6"%string.
Proof. reflexivity. Qed.

Example rate_one_third :
  toFixed1 (rate_percent (inject_Z 1) 3) = "33.3"%string.
Proof. reflexivity. Qed.

(** The exact rate [100 * 3 / 2000] is 0.15, halfway between two tenths;
    the double the source divides to lies below it, and is printed as
    ["0.1"], where the exact quotient would be printed as ["0.2"]. *)
Example rate_on_a_tie :
  fixed_rate_of fix_on_a_tie = RateStr "0.1" /\
  rate_percent (inject_Z 3) 2000 = (5404319552844595 # 36028797018963968)%Q /\
  toFixed1 (100 * inject_Z 3 / inject_Z 2000)%Q = "0.2"%string.
Proof. repeat split. Qed.

Example double_of_one_tenth :
  round_double (1 # 10) = (7205759403792794 # 72057594037927936)%Q /\
  round_double (- (1 # 10)) = (- (7205759403792794 # 72057594037927936))%Q /\
  round_double (9007199254740993 # 1) = (9007199254740992 # 1)%Q.
Proof. repeat split. Qed.

Example rate_tie_rounds_up : toFixed1 (1 # 4)%Q = "0.3"%string.
Proof. reflexivity. Qed.

Example rate_negative : toFixed1 (- (25 # 1))%Q = "-25.0"%string.
Proof. reflexivity. Qed.

Example timestamp_without_clock_fields :
  timestamp_of fix_without_position
    = "undefined:undefined:undefined UTC"%string.
Proof. reflexivity. Qed.




Example rate_of_readme_counts :
  fixed_rate (get_position
                (next all_open
                   (Ingest "t" (fix_with_counts (Val 200%Z) (Val 5%Z)))
                   server0)) = Val (RateStr "97.6").
Proof. reflexivity. Qed.

(** C5.  Ingest is total and the last write wins: for every fix record
    and every server state, whatever the state held before, the handler
    answers [{success: true}], and the state it leaves holds each of the
    thirteen reported properties exactly as the record has it (an absent
    one stays absent, a null one null; none becomes 0), [last_update] is
    the time of receipt, and the whole record is the same whatever the
    previous state was. *)
Theorem ingest_total_last_write_wins
    (rs : ReadyStates) (now : string) (f : Fix) (s : Server) :
  let st := roverState (next rs (Ingest now f) s) in
  fst (fst (post_position rs now f s)) = Json true /\
  (latitude st = fix_latitude f /\
   longitude st = fix_longitude f /\
   altitude st = fix_altitude f /\
   h_acc st = fix_h_acc f /\
   v_acc st = fix_v_acc f /\
   fix_type st = fix_fix_type f /\
   carr_soln st = fix_carr_soln f /\
   num_sv st = fix_num_sv f /\
   rtcm_bytes st = fix_rtcm_bytes f /\
   fixed_count st = fix_fixed_count f /\
   float_count st = fix_float_count f /\
   battery_pct st = fix_battery_pct f /\
   firmware_version st = fix_firmware_version f) /\
  fixed_rate st = Val (fixed_rate_of f) /\
  timestamp st = Val (timestamp_of f) /\
  last_update st = Val now /\
  get_position (next rs (Ingest now f) s) = st /\
  (forall rs' s', roverState (next rs' (Ingest now f) s') = st).
Proof. simpl. repeat split. Qed.

Example ingest_keeps_unknown_fields :
  let st := roverState (next all_open (Ingest "t" fix_without_position)
                             (next all_open (Ingest "t0" sample_fix) server0)) in
  latitude st = Null /\ altitude st = Undefined /\ fix_type st = Val 0%Z /\
  fixed_count st = Undefined /\ fixed_rate st = Val (RateNum 0).
Proof. repeat split. Qed.

(** ** The broadcast hub *)

Lemma broadcast_frames (rs : ReadyStates) (cs : list ws) (message : Message) :
  forall c msg, In (c, msg) (broadcast rs cs message) ->
    msg = message /\ In c cs /\ rs c = 1%Z.
Proof.
  induction cs as [|x cs IH]; simpl; intros c msg H; [contradiction|].
  destruct (Z.eqb_spec (rs x) 1) as [E|E].
  - destruct H as [H|H].
    + inversion H; subst. auto.
    + destruct (IH _ _ H) as (? & ? & ?). auto.
  - destruct (IH _ _ H) as (? & ? & ?). auto.
Qed.

Lemma broadcast_reaches (rs : ReadyStates) (cs : list ws) (message : Message)
    (c : ws) :
  In c cs -> rs c = 1%Z -> In (c, message) (broadcast rs cs message).
Proof.
  intros Hc Ho. induction cs as [|x cs IH]; simpl in *; [contradiction|].
  destruct Hc as [Hc|Hc].
  - subst x. rewrite Ho. simpl. now left.
  - destruct (rs x =? 1)%Z; [right|]; now apply IH.
Qed.


Lemma existsb_eqb_in (c : ws) (cs : list ws) :
  existsb (Nat.eqb c) cs = true <-> In c cs.
Proof.
  rewrite existsb_exists. split.
  - intros (x & Hx & E). apply Nat.eqb_eq in E. now subst.
  - intros H. exists c. split; auto. apply Nat.eqb_refl.
Qed.




(** [clients] never holds a connection twice. *)
Lemma clients_add_NoDup (c : ws) (cs : list ws) :
  NoDup cs -> NoDup (clients_add c cs).
Proof.
  intros H. unfold clients_add.
  destruct (existsb (Nat.eqb c) cs) eqn:E; auto.
  apply NoDup_app; auto.
  - repeat constructor. simpl. tauto.
  - intros x Hx [Hc|[]]. subst x.
    apply existsb_eqb_in in Hx. congruence.
Qed.

Lemma clients_delete_NoDup (c : ws) (cs : list ws) :
  NoDup cs -> NoDup (clients_delete c cs).
Proof. intros H. unfold clients_delete. now apply NoDup_filter. Qed.

Lemma clients_NoDup (rs : ReadyStates) (reqs : list Request) :
  forall s, NoDup (clients s) -> NoDup (clients (run rs reqs s)).
Proof.
  induction reqs as [|r reqs IH]; intros s H; simpl; auto.
  apply IH.
  destruct r as [now f|now_iso now_ms b|id|id label| |c|c]; simpl; auto.
  - unfold post_marks.
    destruct (is_undefined (body_latitude b) || is_undefined (body_longitude b));
      auto.
    destruct (body_latitude b), (body_longitude b); auto.
  - unfold delete_mark. destruct (findIndex (id_is id) (marks s)); auto.
  - unfold patch_mark. destruct (find (id_is id) (marks s)); auto.
  - now apply clients_add_NoDup.
  - now apply clients_delete_NoDup.
Qed.

Example fanout_skips_closing_connection :
  map fst (frames one_closing (Ingest "t" sample_fix) sample_server)
    = [1%nat; 3%nat] /\
  map fst (frames one_closing ClearAll sample_server) = [1%nat; 3%nat] /\
  frames one_closing (Delete (Some 3%Z)) sample_server
    = [(1%nat, MsgMarkDelete (Some 3%Z)); (3%nat, MsgMarkDelete (Some 3%Z))].
Proof. repeat split. Qed.



(** ** A new connection *)

(** C8, as first stated, fails twice: after a fix whose latitude is
    [null] has been ingested, a new connection is sent no position; and
    while there are no marks, a new connection is sent no [marks]
    message. *)
Lemma connection_snapshot_counterexample :
  ~ (forall rs reqs c,
       let s := run rs reqs server0 in
       (exists now f, In (Ingest now f) reqs) ->
       In (c, MsgPosition (roverState s)) (snd (on_connection c s))) /\
  ~ (forall rs reqs c,
       let s := run rs reqs server0 in
       In (c, MsgMarks (marks s)) (snd (on_connection c s))).
Proof.
  split.
  - intros H.
    specialize (H all_open [Ingest "t" fix_without_position] 7%nat).
    simpl in H. apply H. eauto.
  - intros H. specialize (H all_open [] 7%nat). simpl in H. exact H.
Qed.

(** C8, amended.  A new connection is sent, in this order and to itself
    only, the current position state if its latitude is not [null], and
    the whole list of marks if the list is not empty; nothing else is
    sent.  Hence after a fix is ingested the position is sent exactly
    when that fix's latitude is not [null], a server that never ingested a
    fix and holds no mark sends nothing, and an empty list of marks is
    not announced. *)
Theorem connection_snapshot
    (rs : ReadyStates) (now : string) (f : Fix) (c : ws) (s : Server) :
  snd (on_connection c s)
    = (if not_null (latitude (roverState s))
       then [(c, MsgPosition (roverState s))] else []) ++
      (match marks s with
       | [] => []
       | _ :: _ => [(c, MsgMarks (marks s))]
       end) /\
  snd (on_connection c (next rs (Ingest now f) s))
    = (if not_null (fix_latitude f)
       then [(c, MsgPosition (roverState (next rs (Ingest now f) s)))]
       else []) ++
      (match marks s with
       | [] => []
       | _ :: _ => [(c, MsgMarks (marks s))]
       end) /\
  snd (on_connection c server0) = [] /\
  clients (fst (on_connection c s)) = clients_add c (clients s).
Proof.
  repeat split; unfold on_connection; simpl; destruct (marks s); reflexivity.
Qed.

Example connection_after_fix_and_marks :
  let s := next all_open (Ingest "t" sample_fix) sample_server in
  snd (on_connection 9%nat s)
    = [(9%nat, MsgPosition (roverState s)); (9%nat, MsgMarks (marks s))].
Proof. reflexivity. Qed.

(** ** Creating a mark *)

Lemma or_null_zero (q : Q) : (q == 0)%Q -> or_null (Val q) = Null.
Proof.
  intros H. unfold or_null, truthy_num.
  now rewrite (proj2 (Qeq_bool_iff q 0) H).
Qed.

Example create_with_null_latitude_throws_after_storing :
  let b := mkMarkBody Null (Val 1%Q) Undefined Undefined in
  fst (fst (post_marks all_open "t" 0 b server0)) = Threw "TypeError" /\
  List.length (marks (next all_open (Create "t" 0 b) server0)) = 1%nat /\
  markCounter (next all_open (Create "t" 0 b) server0) = 1%Z /\
  frames all_open (Create "t" 0 b) server0 = [].
Proof. repeat split. Qed.

(** C10.  A create whose [h_acc] is the number zero stores [null] for
    it: the mark built for the request has [h_acc] [null]; if the request
    passes validation that mark is the one appended to [marks]; a mark
    returned to the caller is that mark; and every frame broadcast carries
    that mark. *)
Theorem zero_h_acc_stored_as_null
    (rs : ReadyStates) (now_iso : string) (now_ms : Z) (b : MarkBody)
    (s : Server) (q : Q) :
  body_h_acc b = Val q ->
  (q == 0)%Q ->
  let mark := new_mark now_iso now_ms b (markCounter s + 1) in
  mark_h_acc mark = Null /\
  (is_undefined (body_latitude b) || is_undefined (body_longitude b) = false ->
   marks (next rs (Create now_iso now_ms b) s) = marks s ++ [mark]) /\
  (forall m, fst (fst (post_marks rs now_iso now_ms b s)) = Json m ->
             m = mark) /\
  (forall c msg, In (c, msg) (frames rs (Create now_iso now_ms b) s) ->
                 msg = MsgMarkCreate mark).
Proof.
  intros Hb Hq. cbv zeta. repeat split.
  - simpl. rewrite Hb. now apply or_null_zero.
  - intros Hv. unfold next. simpl. unfold post_marks. rewrite Hv.
    destruct (body_latitude b), (body_longitude b); reflexivity.
  - unfold post_marks.
    destruct (is_undefined (body_latitude b) || is_undefined (body_longitude b));
      [discriminate|].
    destruct (body_latitude b), (body_longitude b); simpl;
      try discriminate.
    intros m H. now inversion H.
  - unfold frames. simpl. unfold post_marks.
    destruct (is_undefined (body_latitude b) || is_undefined (body_longitude b));
      [simpl; contradiction|].
    destruct (body_latitude b), (body_longitude b); simpl;
      try contradiction.
    intros c msg H. now apply broadcast_frames in H.
Qed.

Lemma zero_h_acc_stored_as_null_witness :
  let mark := new_mark "t" 5 body_with_zero_h_acc
                       (markCounter sample_server + 1) in
  mark_h_acc mark = Null /\
  (is_undefined (body_latitude body_with_zero_h_acc)
     || is_undefined (body_longitude body_with_zero_h_acc) = false ->
   marks (next one_closing (Create "t" 5 body_with_zero_h_acc) sample_server)
     = marks sample_server ++ [mark]) /\
  (forall m,
      fst (fst (post_marks one_closing "t" 5 body_with_zero_h_acc
                           sample_server)) = Json m ->
      m = mark) /\
  (forall c msg,
      In (c, msg) (frames one_closing (Create "t" 5 body_with_zero_h_acc)
                          sample_server) ->
      msg = MsgMarkCreate mark).
Proof.
  apply (zero_h_acc_stored_as_null one_closing "t" 5 body_with_zero_h_acc
           sample_server 0%Q).
  - reflexivity.
  - reflexivity.
Defined.

Example zero_h_acc_scenario :
  let '(reply, s', out) :=
    post_marks one_closing "t" 5 body_with_zero_h_acc sample_server in
  option_map mark_h_acc (last_error_mark (marks s')) = Some Null /\
  map fst out = [1%nat; 3%nat].
Proof. repeat split. Qed.

End BackendFacts.

(* ================================================================== *)
(** * Properties of the geometry engine *)
(* ================================================================== *)

Module GeometryFacts.

Import Geometry.
Local Open Scope R_scope.

Lemma PI_gt_3 : 3 < PI.
Proof. generalize PI2_3_2; lra. Qed.

(** C2, as first stated, fails: with the antenna at 45 N 122 W and the
    bow to the north, the local point (0, 0), the stern-port corner of the
    hull, is not mapped to the antenna position. *)
Lemma origin_not_fixed_counterexample :
  localToWorld 0 0 45 (-122) 0 <> (-122, 45).
Proof.
  unfold localToWorld, feetToMeters, DREDGE_CONFIG.antenna.x,
    DREDGE_CONFIG.antenna.y.
  intros H. apply (f_equal snd) in H. simpl in H.
  replace (0 * PI / 180) with 0 in H by lra.
  rewrite sin_0, cos_0 in H.
  assert (Hpi : 0 < / PI) by (apply Rinv_0_lt_compat, PI_RGT_0).
  unfold Rdiv in H. nra.
Qed.

(** C2, amended.  For every antenna position and every heading, the
    local point at which the antenna is mounted, (22, 30) feet from the
    stern-port corner, is mapped to [[lon, lat]] unchanged. *)
Theorem antenna_is_fixed_point (lat lon heading : R) :
  localToWorld DREDGE_CONFIG.antenna.x DREDGE_CONFIG.antenna.y
               lat lon heading
    = (lon, lat).
Proof.
  unfold localToWorld, feetToMeters.
  f_equal; unfold Rdiv; ring.
Qed.

End GeometryFacts.

(* ================================================================== *)
(** * Properties of the trail recorder *)
(* ================================================================== *)

Module DashboardFacts.

Import Geometry Dashboard GeometryFacts.
Local Open Scope R_scope.

(** ** Distance along a meridian *)

Lemma sin_cos_abs (x : R) :
  Rabs x < PI / 2 ->
  Rabs (sin x) = sin (Rabs x) /\ Rabs (cos x) = cos (Rabs x) /\
  0 < cos (Rabs x).
Proof.
  intros Hx.
  assert (Hpi := PI_RGT_0).
  assert (Hc : 0 < cos (Rabs x)).
  { apply cos_gt_0; [|assumption].
    generalize (Rabs_pos x); lra. }
  unfold Rabs in *. destruct (Rcase_abs x) as [Hn|Hp].
  - rewrite sin_neg, cos_neg in *.
    destruct (Rcase_abs (sin x)) as [Hs|Hs].
    + destruct (Rcase_abs (cos x)); [lra|auto].
    + exfalso. assert (0 < sin (- x)) by (apply sin_gt_0; lra).
      rewrite sin_neg in *. lra.
  - destruct (Rcase_abs (sin x)) as [Hs|Hs].
    + exfalso. assert (0 <= sin x) by (apply sin_ge_0; lra). lra.
    + destruct (Rcase_abs (cos x)); [lra|auto].
Qed.

(** Between two points of equal longitude and less than 180 degrees of
    latitude apart, the haversine distance is the arc of the meridian. *)
Lemma haversine_meridian (lat1 lat2 lon : R) :
  Rabs (lat2 - lat1) < 180 ->
  haversineDistance lat1 lon lat2 lon
    = 6371000 * (Rabs (lat2 - lat1) * PI / 180).
Proof.
  intros Hd. assert (Hpi := PI_RGT_0).
  unfold haversineDistance.
  replace ((lon - lon) * PI / 180 / 2) with 0 by lra.
  rewrite sin_0.
  set (x := (lat2 - lat1) * PI / 180 / 2).
  assert (Hx : Rabs x = Rabs (lat2 - lat1) * PI / 180 / 2).
  { unfold x.
    replace ((lat2 - lat1) * PI / 180 / 2)
      with ((lat2 - lat1) * (PI / 360)) by lra.
    rewrite Rabs_mult, (Rabs_pos_eq (PI / 360)) by lra. lra. }
  assert (Hlt : Rabs x < PI / 2).
  { rewrite Hx. generalize (Rabs_pos (lat2 - lat1)). nra. }
  destruct (sin_cos_abs x Hlt) as (Hs & Hc & Hpos).
  replace (sin x * sin x +
           cos (lat1 * PI / 180) * cos (lat2 * PI / 180) * 0 * 0)
    with (Rsqr (sin x)) by (unfold Rsqr; ring).
  rewrite <- cos2, !sqrt_Rsqr_abs, Hs, Hc.
  unfold atan2. destruct (Rlt_dec 0 (cos (Rabs x))) as [_|N]; [|contradiction].
  change (sin (Rabs x) / cos (Rabs x)) with (tan (Rabs x)).
  rewrite atan_tan by (generalize (Rabs_pos x); lra).
  rewrite Hx. lra.
Qed.

Lemma haversine_near (lat1 lat2 lon : R) :
  Rabs (lat2 - lat1) <= 3 / 1000000 ->
  haversineDistance lat1 lon lat2 lon < 5 / 10.
Proof.
  intros H. rewrite haversine_meridian by lra.
  generalize PI_4 PI_RGT_0 (Rabs_pos (lat2 - lat1)). nra.
Qed.

Lemma haversine_far (lat1 lat2 lon : R) :
  6 / 1000000 <= Rabs (lat2 - lat1) ->
  Rabs (lat2 - lat1) < 180 ->
  5 / 10 <= haversineDistance lat1 lon lat2 lon.
Proof.
  intros H1 H2. rewrite haversine_meridian by lra.
  generalize PI_gt_3. nra.
Qed.

(** ** One fix *)

Lemma if_Rlt_true {A} (a b : R) (x y : A) :
  a < b -> (if Rlt_dec a b then x else y) = x.
Proof. intros H. destruct (Rlt_dec a b); [reflexivity|contradiction]. Qed.

Lemma if_Rlt_false {A} (a b : R) (x y : A) :
  b <= a -> (if Rlt_dec a b then x else y) = y.
Proof. intros H. destruct (Rlt_dec a b); [lra|reflexivity]. Qed.

(** What a live RTK-fixed fix does: the position it is compared with is
    [currentPosition] as the previous message left it, and
    [currentPosition] moves to the new fix whether or not a point is
    recorded. *)
Lemma live_fix (lat lon : R) (d : RoverDashboard) :
  locationMode d = "live"%string ->
  let cur := mkPosition lat lon in
  let d1 := with_position (Some cur) d in
  act (OnFix (rtk_fixed lat lon)) d =
    match currentPosition d with
    | None => pushTrailPoint cur d1
    | Some prev =>
        if Rlt_dec (haversineDistance (latitude prev) (longitude prev) lat lon)
                   (minTrailDistance d)
        then d1
        else pushTrailPoint cur d1
    end.
Proof.
  intros Hl. unfold act, updateDashboard, rtk_fixed. simpl.
  rewrite Hl. simpl. unfold recordTrailPoint. simpl.
  destruct (currentPosition d); reflexivity.
Qed.

Lemma first_fix (lat lon : R) (d : RoverDashboard) :
  locationMode d = "live"%string ->
  currentPosition d = None ->
  act (OnFix (rtk_fixed lat lon)) d
    = pushTrailPoint (mkPosition lat lon)
                     (with_position (Some (mkPosition lat lon)) d).
Proof. intros Hl Hc. rewrite live_fix by assumption. now rewrite Hc. Qed.

Lemma near_fix (lat lon : R) (prev : Position) (d : RoverDashboard) :
  locationMode d = "live"%string ->
  currentPosition d = Some prev ->
  haversineDistance (latitude prev) (longitude prev) lat lon
    < minTrailDistance d ->
  act (OnFix (rtk_fixed lat lon)) d
    = with_position (Some (mkPosition lat lon)) d.
Proof.
  intros Hl Hc Hd. rewrite live_fix by assumption. rewrite Hc.
  now apply if_Rlt_true.
Qed.

Lemma far_fix (lat lon : R) (prev : Position) (d : RoverDashboard) :
  locationMode d = "live"%string ->
  currentPosition d = Some prev ->
  minTrailDistance d
    <= haversineDistance (latitude prev) (longitude prev) lat lon ->
  act (OnFix (rtk_fixed lat lon)) d
    = pushTrailPoint (mkPosition lat lon)
                     (with_position (Some (mkPosition lat lon)) d).
Proof.
  intros Hl Hc Hd. rewrite live_fix by assumption. rewrite Hc.
  now apply if_Rlt_false.
Qed.

Lemma perform_cons (a : Action) (l : list Action) (d : RoverDashboard) :
  perform (a :: l) d = perform l (act a d).
Proof. reflexivity. Qed.

Lemma perform_nil (d : RoverDashboard) : perform [] d = d.
Proof. reflexivity. Qed.

Lemma Rabs_step (a b k : R) :
  0 <= k -> b - a = k \/ b - a = - k -> Rabs (b - a) = k.
Proof.
  intros Hk [E|E]; rewrite E.
  - now apply Rabs_pos_eq.
  - rewrite Rabs_Ropp. now apply Rabs_pos_eq.
Qed.

(** ** Decimation *)

(** C1.  What the recorder does on three live RTK-fixed fixes a third
    of a metre apart on one meridian.  After A, B (north of A) and C
    (south of A) the piloting trail is [A; C]: C is recorded although it
    lies within [minTrailDistance] of A, the only point recorded before
    it, because it is compared with B, the fix received just before.
    After A, B and D (beyond B) the piloting trail is [A]: D is dropped
    although it lies [minTrailDistance] or more from A, because it is
    compared with B.  The reference point is the previous fix, not the
    last recorded point. *)
Theorem decimation_compares_with_previous_fix :
  let threshold := minTrailDistance constructor in
  piloting (trails (perform [OnFix fixA; OnFix fixB; OnFix fixC] constructor))
    = [(-122, 45); (-122, 45 - 3 / 1000000)] /\
  haversineDistance 45 (-122) (45 + 3 / 1000000) (-122) < threshold /\
  haversineDistance 45 (-122) (45 - 3 / 1000000) (-122) < threshold /\
  piloting (trails (perform [OnFix fixA; OnFix fixB; OnFix fixD] constructor))
    = [(-122, 45)] /\
  threshold <= haversineDistance 45 (-122) (45 + 6 / 1000000) (-122).
Proof.
  assert (HAB : haversineDistance 45 (-122) (45 + 3 / 1000000) (-122) < 5 / 10).
  { apply haversine_near. rewrite (Rabs_step 45 _ (3 / 1000000)); lra. }
  assert (HAC : haversineDistance 45 (-122) (45 - 3 / 1000000) (-122) < 5 / 10).
  { apply haversine_near. rewrite (Rabs_step 45 _ (3 / 1000000)); lra. }
  assert (HBC : 5 / 10 <= haversineDistance (45 + 3 / 1000000) (-122)
                                             (45 - 3 / 1000000) (-122)).
  { apply haversine_far;
      rewrite (Rabs_step (45 + 3 / 1000000) _ (6 / 1000000)); lra. }
  assert (HBD : haversineDistance (45 + 3 / 1000000) (-122)
                                  (45 + 6 / 1000000) (-122) < 5 / 10).
  { apply haversine_near.
    rewrite (Rabs_step (45 + 3 / 1000000) _ (3 / 1000000)); lra. }
  assert (HAD : 5 / 10 <= haversineDistance 45 (-122) (45 + 6 / 1000000) (-122)).
  { apply haversine_far; rewrite (Rabs_step 45 _ (6 / 1000000)); lra. }
  cbv zeta. change (minTrailDistance constructor) with (5 / 10).
  repeat split; try assumption.
  - unfold fixA, fixB, fixC. rewrite !perform_cons, perform_nil.
    rewrite (first_fix 45 (-122) constructor) by reflexivity.
    rewrite (near_fix (45 + 3 / 1000000) (-122) (mkPosition 45 (-122)))
      by (reflexivity || exact HAB).
    rewrite (far_fix (45 - 3 / 1000000) (-122)
                     (mkPosition (45 + 3 / 1000000) (-122)))
      by (reflexivity || exact HBC).
    reflexivity.
  - unfold fixA, fixB, fixD. rewrite !perform_cons, perform_nil.
    rewrite (first_fix 45 (-122) constructor) by reflexivity.
    rewrite (near_fix (45 + 3 / 1000000) (-122) (mkPosition 45 (-122)))
      by (reflexivity || exact HAB).
    rewrite (near_fix (45 + 6 / 1000000) (-122)
                      (mkPosition (45 + 3 / 1000000) (-122)))
      by (reflexivity || exact HBD).
    reflexivity.
Qed.

(** [updateDashboard] leaves the trails alone or makes the three pushes. *)
Lemma updateDashboard_trails (data : PositionData) (d : RoverDashboard) :
  trails (snd (updateDashboard data d)) = trails d \/
  exists cur d1,
    trails d1 = trails d /\
    snd (updateDashboard data d) = pushTrailPoint cur d1.
Proof.
  unfold updateDashboard.
  destruct (data_latitude data) as [| |lat], (data_longitude data) as [| |lon];
    simpl; auto.
  destruct (is_undefined (data_altitude data)); simpl; auto.
  destruct (String.eqb (locationMode d) "live") eqn:Hl; simpl.
  - destruct (data_carr_soln data) as [| |z]; simpl; auto.
    destruct z as [|q|q]; simpl; auto.
    destruct q as [q|q|]; simpl; auto.
    destruct q as [q|q|]; simpl; auto.
    unfold recordTrailPoint. simpl.
    destruct (currentPosition d) as [prev|].
    + destruct (Rlt_dec _ _); simpl; auto.
      right. eexists _, _. split; [|reflexivity]. reflexivity.
    + right. eexists _, _. split; [|reflexivity]. reflexivity.
  - destruct (currentPosition d); simpl; auto.
    destruct (data_carr_soln data) as [| |z]; simpl; auto.
    destruct z as [|q|q]; simpl; auto.
    destruct q as [q|q|]; simpl; auto.
    destruct q as [q|q|]; simpl; auto.
Qed.

Lemma act_balanced (a : Action) (d : RoverDashboard) :
  balanced (trails d) -> balanced (trails (act a d)).
Proof.
  intros [H1 H2]. destruct a as [data|value|value|]; simpl.
  - destruct (updateDashboard_trails data d) as [E|(cur & d1 & Ht & E)].
    + rewrite E. split; assumption.
    + rewrite E. unfold balanced, pushTrailPoint. simpl.
      rewrite !length_app, Ht. simpl. lia.
  - unfold onLocationChange. destruct (String.eqb value "nome"); split; assumption.
  - split; assumption.
  - split; reflexivity.
Qed.

Lemma perform_balanced (l : list Action) :
  forall d, balanced (trails d) -> balanced (trails (perform l d)).
Proof.
  unfold perform.
  induction l as [|a l IH]; intros d H; simpl; auto.
  apply IH. now apply act_balanced.
Qed.

(** C9.  The three trail sequences advance together: a position message
    either leaves all three as they are or appends exactly one element to
    each of them; clearing empties all three; and after every sequence of
    position messages, mode changes, heading changes and clears on a new
    dashboard the three sequences have equal length. *)
Theorem trails_advance_together
    (data : PositionData) (d : RoverDashboard) (l : list Action) :
  let t := trails d in
  let t' := trails (act (OnFix data) d) in
  (t' = t \/
   exists p q z,
     piloting t' = piloting t ++ [p] /\
     suction t' = suction t ++ [q] /\
     tailings t' = tailings t ++ [z]) /\
  trails (act Clear d) = mkTrails [] [] [] /\
  balanced (trails (perform l constructor)).
Proof.
  cbv zeta. split; [|split].
  - simpl. destruct (updateDashboard_trails data d) as [E|(cur & d1 & Ht & E)].
    + now left.
    + right. rewrite E. unfold pushTrailPoint. simpl. rewrite Ht.
      eexists _, _, _. repeat split.
  - reflexivity.
  - apply perform_balanced. split; reflexivity.
Qed.

End DashboardFacts.


(* ================================================================== *)
(** * More properties of the server *)
(* ================================================================== *)

Module RegistryFacts.

Import Backend Registry BackendFacts.

(** ** Numbering *)

Lemma sorted_snoc (l : list Z) (x : Z) :
  StronglySorted Z.lt l -> Forall (fun y => (y < x)%Z) l ->
  StronglySorted Z.lt (l ++ [x]).
Proof.
  induction l as [|y l IH]; intros Hs Hb; simpl.
  - repeat constructor.
  - inversion Hs; subst. inversion Hb; subst.
    constructor; auto.
    apply Forall_app. split; auto.
Qed.

Lemma splice1_ids_sorted (i : nat) (l : list Mark) :
  StronglySorted Z.lt (map mark_id l) ->
  StronglySorted Z.lt (map mark_id (splice1 i l)).
Proof.
  revert i; induction l as [|m l IH]; intros [|i] H; simpl; auto;
    inversion H; subst; auto.
  constructor; auto.
  clear - H3. revert i. induction l as [|m' l IH]; intros [|i]; simpl; auto;
    inversion H3; subst; auto.
Qed.

Lemma splice1_ids_forall (P : Z -> Prop) (i : nat) (l : list Mark) :
  Forall P (map mark_id l) -> Forall P (map mark_id (splice1 i l)).
Proof.
  revert i; induction l as [|m l IH]; intros [|i] H; simpl; auto;
    inversion H; subst; auto.
Qed.

Lemma assign_label_ids (p : Mark -> bool) (label : string) (l : list Mark) :
  map mark_id (assign_label p label l) = map mark_id l.
Proof.
  induction l as [|m l IH]; simpl; auto.
  destruct (p m); simpl; congruence.
Qed.

Lemma well_numbered_step (rs : ReadyStates) (r : Request) (s : Server) :
  well_numbered s -> well_numbered (next rs r s).
Proof.
  intros (Hc & Hs & Hb). unfold well_numbered, ids, next in *.
  destruct r as [now f|now_iso now_ms b|id|id label| |c|c]; simpl; auto.
  - unfold post_marks.
    destruct (is_undefined (body_latitude b) || is_undefined (body_longitude b));
      simpl; auto.
    assert (H : (0 <= markCounter s + 1)%Z /\
                StronglySorted Z.lt
                  (map mark_id (marks s) ++ [(markCounter s + 1)%Z]) /\
                Forall (fun id => (0 < id <= markCounter s + 1)%Z)
                       (map mark_id (marks s) ++ [(markCounter s + 1)%Z])).
    { split; [lia|]. split.
      - apply sorted_snoc; auto.
        eapply Forall_impl; [|exact Hb]. simpl. intros; lia.
      - apply Forall_app. split.
        + eapply Forall_impl; [|exact Hb]. simpl. intros; lia.
        + repeat constructor; lia. }
    destruct (body_latitude b), (body_longitude b); simpl;
      rewrite map_app; simpl; exact H.
  - unfold delete_mark.
    destruct (findIndex (id_is id) (marks s)) as [i|]; simpl; auto.
    repeat split; auto.
    + now apply splice1_ids_sorted.
    + now apply splice1_ids_forall.
  - unfold patch_mark.
    destruct (find (id_is id) (marks s)) as [m|]; simpl; auto.
    destruct (truthy_str label); auto.
    rewrite assign_label_ids. auto.
  - repeat split; try constructor. lia.
Qed.

Lemma well_numbered_run (rs : ReadyStates) (reqs : list Request) :
  forall s, well_numbered s -> well_numbered (run rs reqs s).
Proof.
  induction reqs as [|r reqs IH]; intros s H; simpl; auto.
  apply IH. now apply well_numbered_step.
Qed.

Lemma sorted_NoDup (l : list Z) : StronglySorted Z.lt l -> NoDup l.
Proof.
  induction l as [|x l IH]; intros H; [constructor|].
  inversion H as [|? ? Hs Hf]; subst. constructor; auto.
  intros Hin. rewrite Forall_forall in Hf. specialize (Hf x Hin). lia.
Qed.

(** X1.  The registry stays well numbered: from the empty server, and
    from every server whose mark ids increase along the list and lie
    between 1 and the counter, every sequence of requests leads to a server
    with the same property; in particular no two marks ever carry the same
    id, and the id the next create will use is carried by no mark. *)
Theorem registry_stays_well_numbered
    (rs : ReadyStates) (reqs : list Request) (s : Server) :
  well_numbered s ->
  let s' := run rs reqs s in
  well_numbered s' /\
  NoDup (ids s') /\
  ~ In (markCounter s' + 1)%Z (ids s') /\
  well_numbered (run rs reqs server0).
Proof.
  intros H. cbv zeta.
  assert (H' := well_numbered_run rs reqs s H).
  repeat split; try apply H'.
  - apply sorted_NoDup, H'.
  - destruct H' as (_ & _ & Hb). intros Hin.
    rewrite Forall_forall in Hb. specialize (Hb _ Hin). lia.
  - apply well_numbered_run. repeat split; try constructor. simpl. lia.
  - apply well_numbered_run. repeat split; try constructor. simpl. lia.
  - apply well_numbered_run. repeat split; try constructor. simpl. lia.
Qed.

Lemma registry_stays_well_numbered_witness :
  well_numbered sample_server /\
  (let s' := run one_closing sample_requests sample_server in
   well_numbered s' /\
   NoDup (ids s') /\
   ~ In (markCounter s' + 1)%Z (ids s') /\
   well_numbered (run one_closing sample_requests server0)).
Proof.
  assert (H : well_numbered sample_server).
  { unfold well_numbered.
    change (ids sample_server) with [1; 3; 4]%Z.
    change (markCounter sample_server) with 4%Z.
    split; [lia|]. split.
    - repeat (constructor; try lia).
    - repeat (apply Forall_cons; [lia|]). apply Forall_nil. }
  split; [exact H|].
  apply (registry_stays_well_numbered one_closing sample_requests sample_server).
  exact H.
Defined.

(** ** Deleting *)

Lemma filter_keeps_all (n : Z) (l : list Mark) :
  ~ In n (map mark_id l) ->
  filter (fun m => negb (mark_id m =? n)%Z) l = l.
Proof.
  induction l as [|m l IH]; simpl; intros H; auto.
  destruct (Z.eqb_spec (mark_id m) n) as [E|E]; simpl.
  - exfalso. apply H. now left.
  - rewrite IH; auto.
Qed.

Lemma splice1_found (n : Z) (l : list Mark) :
  NoDup (map mark_id l) -> In n (map mark_id l) ->
  exists i, findIndex (id_is (Some n)) l = Some i /\
            splice1 i l = filter (fun m => negb (mark_id m =? n)%Z) l.
Proof.
  induction l as [|m l IH]; simpl; intros Hnd Hin; [contradiction|].
  inversion Hnd as [|? ? Hm Hl]; subst.
  destruct (Z.eqb_spec (mark_id m) n) as [E|E]; simpl.
  - exists O. split; auto. subst n. now rewrite filter_keeps_all.
  - destruct Hin as [Hin|Hin]; [contradiction|].
    destruct (IH Hl Hin) as (i & Hi & Hs).
    exists (S i). rewrite Hi. simpl. rewrite Hs. auto.
Qed.

Lemma filter_removes (n : Z) (l : list Mark) :
  ~ In n (map mark_id (filter (fun m => negb (mark_id m =? n)%Z) l)).
Proof.
  intros H. apply in_map_iff in H. destruct H as (m & E & Hm).
  apply filter_In in Hm. destruct Hm as [_ Hm].
  rewrite E, Z.eqb_refl in Hm. discriminate.
Qed.

Lemma filter_one_less (n : Z) (l : list Mark) :
  NoDup (map mark_id l) -> In n (map mark_id l) ->
  S (List.length (filter (fun m => negb (mark_id m =? n)%Z) l)) = List.length l.
Proof.
  induction l as [|m l IH]; simpl; intros Hnd Hin; [contradiction|].
  inversion Hnd as [|? ? Hm Hl]; subst.
  destruct (Z.eqb_spec (mark_id m) n) as [E|E]; simpl.
  - subst n. now rewrite filter_keeps_all.
  - destruct Hin as [Hin|Hin]; [contradiction|]. now rewrite IH.
Qed.

(** X2.  Deleting by id removes exactly the mark with that id: when the
    ids in the registry are distinct and [n] is one of them, the delete is
    answered with success, the registry afterwards is the old one without
    the marks whose id is [n] (one mark fewer, the others in their old
    order), the counter is untouched, every open tracked connection is
    told the id, and a second delete of [n] is answered with 404. *)
Theorem delete_removes_exactly_that_mark
    (rs : ReadyStates) (n : Z) (s : Server) :
  NoDup (ids s) ->
  In n (ids s) ->
  let s' := next rs (Delete (Some n)) s in
  fst (fst (delete_mark rs (Some n) s)) = Json true /\
  marks s' = filter (fun m => negb (mark_id m =? n)%Z) (marks s) /\
  S (List.length (marks s')) = List.length (marks s) /\
  ~ In n (ids s') /\
  markCounter s' = markCounter s /\
  frames rs (Delete (Some n)) s
    = broadcast rs (clients s) (MsgMarkDelete (Some n)) /\
  delete_mark rs (Some n) s' = (Status 404 "Mark not found", s', []).
Proof.
  intros Hnd Hin. unfold ids in *.
  destruct (splice1_found n (marks s) Hnd Hin) as (i & Hi & Hs).
  assert (E : delete_mark rs (Some n) s =
              (Json true,
               mkServer (roverState s)
                        (filter (fun m => negb (mark_id m =? n)%Z) (marks s))
                        (markCounter s) (clients s),
               broadcast rs (clients s) (MsgMarkDelete (Some n)))).
  { unfold delete_mark. now rewrite Hi, Hs. }
  cbv zeta. unfold next, frames. simpl. rewrite E. simpl.
  repeat split.
  - now apply filter_one_less.
  - apply filter_removes.
  - unfold delete_mark. simpl. rewrite findIndex_none; auto.
    apply id_is_absent. intros m Hm Hid. inversion Hid; subst.
    apply (filter_removes (mark_id m) (marks s)).
    now apply in_map.
Qed.

Lemma delete_removes_exactly_that_mark_witness :
  let s' := next one_closing (Delete (Some 3%Z)) sample_server in
  fst (fst (delete_mark one_closing (Some 3%Z) sample_server)) = Json true /\
  marks s' = filter (fun m => negb (mark_id m =? 3)%Z) (marks sample_server) /\
  S (List.length (marks s')) = List.length (marks sample_server) /\
  ~ In 3%Z (ids s') /\
  markCounter s' = markCounter sample_server /\
  frames one_closing (Delete (Some 3%Z)) sample_server
    = broadcast one_closing (clients sample_server) (MsgMarkDelete (Some 3%Z)) /\
  delete_mark one_closing (Some 3%Z) s' = (Status 404 "Mark not found", s', []).
Proof.
  apply (delete_removes_exactly_that_mark one_closing 3%Z sample_server).
  - change (ids sample_server) with [1; 3; 4]%Z.
    repeat constructor; simpl; intuition discriminate.
  - change (ids sample_server) with [1; 3; 4]%Z. simpl. auto.
Defined.

(** ** Creating *)

Lemma findIndex_snoc (p : Mark -> bool) (l : list Mark) (m : Mark) :
  (forall m', In m' l -> p m' = false) -> p m = true ->
  findIndex p (l ++ [m]) = Some (List.length l).
Proof.
  induction l as [|x l IH]; simpl; intros Hl Hm.
  - now rewrite Hm.
  - rewrite (Hl x) by auto. rewrite IH; auto.
Qed.

Lemma splice1_snoc (l : list Mark) (m : Mark) :
  splice1 (List.length l) (l ++ [m]) = l.
Proof. induction l as [|x l IH]; simpl; congruence. Qed.

(** X3.  A create that passes validation can be looked up and undone:
    on a well-numbered registry the list of marks afterwards is the old
    list followed by the new mark, whose id is the old counter plus one and
    whose label is the label sent or, if none or an empty one was sent,
    [RM_] followed by the id; deleting that id gives back the old list of
    marks, while the counter keeps the id used. *)
Theorem create_then_delete_restores_marks
    (rs : ReadyStates) (now_iso : string) (now_ms : Z) (b : MarkBody)
    (s : Server) :
  well_numbered s ->
  is_undefined (body_latitude b) || is_undefined (body_longitude b) = false ->
  let s1 := next rs (Create now_iso now_ms b) s in
  let id := (markCounter s + 1)%Z in
  let s2 := next rs (Delete (Some id)) s1 in
  (exists m, get_marks s1 = marks s ++ [m] /\
             mark_id m = id /\
             mark_label m = or_str (body_label b) ("RM_" ++ string_of_Z id)) /\
  marks s2 = marks s /\
  markCounter s2 = id /\
  fst (fst (handle rs (Delete (Some id)) s1)) = Replied 200.
Proof.
  intros (Hc & Hs & Hb) Hv. cbv zeta.
  assert (E : next rs (Create now_iso now_ms b) s =
              mkServer (roverState s)
                       (marks s ++ [new_mark now_iso now_ms b (markCounter s + 1)])
                       (markCounter s + 1) (clients s)).
  { unfold next. simpl. unfold post_marks. rewrite Hv.
    destruct (body_latitude b), (body_longitude b); reflexivity. }
  rewrite E.
  assert (F : findIndex (id_is (Some (markCounter s + 1)%Z))
                        (marks s ++ [new_mark now_iso now_ms b (markCounter s + 1)])
              = Some (List.length (marks s))).
  { apply findIndex_snoc.
    - apply id_is_absent. intros m Hm Hid. inversion Hid as [Hid'].
      unfold ids in Hb. rewrite Forall_forall in Hb.
      specialize (Hb (mark_id m) (in_map mark_id _ _ Hm)). lia.
    - simpl. apply Z.eqb_refl. }
  split; [|unfold next; simpl; unfold delete_mark; simpl; rewrite F; simpl;
           rewrite splice1_snoc; auto].
  eexists. split; [reflexivity|]. split; reflexivity.
Qed.

Lemma create_then_delete_restores_marks_witness :
  let s1 := next one_closing (Create "t" 5 sample_body) sample_server in
  let id := (markCounter sample_server + 1)%Z in
  let s2 := next one_closing (Delete (Some id)) s1 in
  (exists m, get_marks s1 = marks sample_server ++ [m] /\
             mark_id m = id /\
             mark_label m
               = or_str (body_label sample_body) ("RM_" ++ string_of_Z id)) /\
  marks s2 = marks sample_server /\
  markCounter s2 = id /\
  fst (fst (handle one_closing (Delete (Some id)) s1)) = Replied 200.
Proof.
  apply (create_then_delete_restores_marks one_closing "t" 5 sample_body
           sample_server).
  - unfold well_numbered.
    change (ids sample_server) with [1; 3; 4]%Z.
    change (markCounter sample_server) with 4%Z.
    split; [lia|]. split.
    + repeat (constructor; try lia).
    + repeat (apply Forall_cons; [lia|]). apply Forall_nil.
  - reflexivity.
Defined.

(** ** Renaming *)

Lemma assign_label_unlabelled (p : Mark -> bool) (v : string) (l : list Mark) :
  map unlabelled (assign_label p v l) = map unlabelled l.
Proof.
  induction l as [|x l IH]; simpl; auto.
  destruct (p x); simpl; [reflexivity|congruence].
Qed.

Lemma assign_label_others (p : Mark -> bool) (v : string) (l : list Mark) :
  forall m, In m l -> p m = false -> In m (assign_label p v l).
Proof.
  induction l as [|x l IH]; simpl; intros m Hm Hp; auto.
  destruct (p x) eqn:E; simpl.
  - destruct Hm as [Hm|Hm]; [subst; congruence|auto].
  - destruct Hm as [Hm|Hm]; auto.
Qed.

Lemma assign_label_target (n : Z) (v : string) (l : list Mark) :
  NoDup (map mark_id l) ->
  forall m, In m (assign_label (id_is (Some n)) v l) ->
            mark_id m = n -> mark_label m = v.
Proof.
  induction l as [|x l IH]; simpl; intros Hnd m Hm Hid; [contradiction|].
  inversion Hnd as [|? ? Hx Hl]; subst.
  destruct (Z.eqb_spec (mark_id x) (mark_id m)) as [E|E]; simpl in Hm.
  - destruct Hm as [Hm|Hm]; [now subst m|].
    exfalso. apply Hx. rewrite E. now apply in_map.
  - destruct Hm as [Hm|Hm]; [subst; congruence|]. now apply IH.
Qed.

Lemma find_assign_label (p : Mark -> bool) (v : string) (l : list Mark) :
  forall m, find p l = Some m -> In (set_label v m) (assign_label p v l).
Proof.
  induction l as [|x l IH]; simpl; intros m H; [discriminate|].
  destruct (p x); simpl.
  - inversion H; subst. now left.
  - right. now apply IH.
Qed.

Lemma find_present (n : Z) (l : list Mark) :
  In n (map mark_id l) ->
  exists m, find (id_is (Some n)) l = Some m /\ mark_id m = n.
Proof.
  induction l as [|x l IH]; simpl; intros H; [contradiction|].
  destruct (Z.eqb_spec (mark_id x) n) as [E|E].
  - eauto.
  - destruct H as [H|H]; [contradiction|auto].
Qed.

(** X4.  A rename touches one label and nothing else: when the ids are
    distinct, [n] is one of them and the label sent is not empty, the reply
    and the broadcast carry the mark with id [n] and the new label, every
    mark with id [n] in the registry now has that label, every other mark is
    as it was, all marks keep their ids, coordinates, accuracy and times in
    their old order, and the counter is untouched; a rename with an absent,
    null or empty label is still answered with 200 but leaves the server as
    it was. *)
Theorem rename_changes_only_that_label
    (rs : ReadyStates) (n : Z) (v : string) (s : Server) :
  NoDup (ids s) ->
  In n (ids s) ->
  v <> ""%string ->
  let s' := next rs (Update (Some n) (Val v)) s in
  (exists m,
      fst (fst (patch_mark rs (Some n) (Val v) s)) = Json m /\
      mark_id m = n /\ mark_label m = v /\ In m (marks s') /\
      frames rs (Update (Some n) (Val v)) s
        = broadcast rs (clients s) (MsgMarkUpdate m)) /\
  (forall m, In m (marks s') -> mark_id m = n -> mark_label m = v) /\
  (forall m, In m (marks s) -> mark_id m <> n -> In m (marks s')) /\
  map unlabelled (marks s') = map unlabelled (marks s) /\
  markCounter s' = markCounter s /\
  (forall label, truthy_str label = false ->
     next rs (Update (Some n) label) s = s /\
     fst (fst (handle rs (Update (Some n) label) s)) = Replied 200).
Proof.
  intros Hnd Hin Hv. unfold ids in *.
  destruct (find_present n (marks s) Hin) as (m0 & Hf & Hid).
  assert (Ht : truthy_str (Val v) = true).
  { simpl. destruct (String.eqb_spec v ""); [contradiction|reflexivity]. }
  assert (Ho : or_str (Val v) "" = v).
  { simpl. destruct (String.eqb_spec v ""); [contradiction|reflexivity]. }
  assert (E : patch_mark rs (Some n) (Val v) s =
              (Json (set_label v m0),
               mkServer (roverState s)
                        (assign_label (id_is (Some n)) v (marks s))
                        (markCounter s) (clients s),
               broadcast rs (clients s) (MsgMarkUpdate (set_label v m0)))).
  { unfold patch_mark. rewrite Hf, Ht, Ho. reflexivity. }
  cbv zeta. unfold next, frames. simpl handle. rewrite E. simpl.
  split; [|split; [|split; [|split; [|split]]]].
  - exists (set_label v m0). repeat split; auto.
    now apply find_assign_label.
  - intros m Hm Hm'. now apply (assign_label_target n v (marks s)).
  - intros m Hm Hm'. apply assign_label_others; auto.
    simpl. now apply Z.eqb_neq.
  - apply assign_label_unlabelled.
  - reflexivity.
  - intros label Hl. unfold patch_mark. rewrite Hf, Hl. simpl.
    split; [|reflexivity]. destruct s; reflexivity.
Qed.

Lemma rename_changes_only_that_label_witness :
  let s' := next one_closing (Update (Some 3%Z) (Val "BENCH_A"%string))
                 sample_server in
  (exists m,
      fst (fst (patch_mark one_closing (Some 3%Z) (Val "BENCH_A"%string)
                           sample_server)) = Json m /\
      mark_id m = 3%Z /\ mark_label m = "BENCH_A"%string /\ In m (marks s') /\
      frames one_closing (Update (Some 3%Z) (Val "BENCH_A"%string)) sample_server
        = broadcast one_closing (clients sample_server) (MsgMarkUpdate m)) /\
  (forall m, In m (marks s') -> mark_id m = 3%Z ->
             mark_label m = "BENCH_A"%string) /\
  (forall m, In m (marks sample_server) -> mark_id m <> 3%Z -> In m (marks s')) /\
  map unlabelled (marks s') = map unlabelled (marks sample_server) /\
  markCounter s' = markCounter sample_server /\
  (forall label, truthy_str label = false ->
     next one_closing (Update (Some 3%Z) label) sample_server = sample_server /\
     fst (fst (handle one_closing (Update (Some 3%Z) label) sample_server))
       = Replied 200).
Proof.
  apply (rename_changes_only_that_label one_closing 3%Z "BENCH_A" sample_server).
  - change (ids sample_server) with [1; 3; 4]%Z.
    repeat constructor; simpl; intuition discriminate.
  - change (ids sample_server) with [1; 3; 4]%Z. simpl. auto.
  - discriminate.
Defined.

(** ** Restarting *)

Lemma load_what_was_saved (s s0 : Server) :
  marks (loadMarks (saveMarks s) s0) = marks s /\
  markCounter (loadMarks (saveMarks s) s0) = markCounter s.
Proof. split; reflexivity. Qed.

Lemma unwritten_request_keeps_registry
    (rs : ReadyStates) (r : Request) (s : Server) :
  writes_file r (fst (fst (handle rs r s))) = false ->
  marks (next rs r s) = marks s /\ markCounter (next rs r s) = markCounter s.
Proof.
  unfold next.
  destruct r as [now f|now_iso now_ms b|id|id label| |c|c]; simpl; auto.
  - unfold post_marks.
    destruct (is_undefined (body_latitude b) || is_undefined (body_longitude b));
      simpl; auto.
    destruct (body_latitude b), (body_longitude b); simpl; discriminate.
  - unfold delete_mark.
    destruct (findIndex (id_is id) (marks s)); simpl; auto. discriminate.
  - unfold patch_mark.
    destruct (find (id_is id) (marks s)); simpl; auto. discriminate.
  - discriminate.
Qed.

Lemma restart_invariant (rs : ReadyStates) (reqs : list Request) :
  forall sd,
    marks (startup (snd sd)) = marks (fst sd) ->
    markCounter (startup (snd sd)) = markCounter (fst sd) ->
    marks (startup (snd (run_on_disk rs reqs sd)))
      = marks (fst (run_on_disk rs reqs sd)) /\
    markCounter (startup (snd (run_on_disk rs reqs sd)))
      = markCounter (fst (run_on_disk rs reqs sd)).
Proof.
  unfold run_on_disk.
  induction reqs as [|r reqs IH]; intros [s d] Hm Hc; simpl in *; auto.
  apply IH; unfold handle_on_disk; simpl;
    destruct (handle rs r s) as [[e s'] out] eqn:E; simpl;
    destruct (writes_file r e) eqn:W; simpl; auto;
    assert (H := unwritten_request_keeps_registry rs r s);
    unfold next in H; rewrite E in H; simpl in H;
    destruct (H W) as [H1 H2]; congruence.
Qed.

(** X5.  A restart loses no mark: start the server on any disk, handle
    any sequence of requests with every write of [marks.json] succeeding,
    and start again on the disk as it then is; the marks and the counter
    are those the server had in memory.  Without a file, or with one that
    does not parse, the server starts with no marks and the counter at
    zero. *)
Theorem restart_restores_registry
    (rs : ReadyStates) (reqs : list Request) (d0 : Disk) :
  let sd := run_on_disk rs reqs (startup d0, d0) in
  marks (startup (snd sd)) = marks (fst sd) /\
  markCounter (startup (snd sd)) = markCounter (fst sd) /\
  startup NoFile = server0 /\
  startup Unreadable = server0.
Proof.
  cbv zeta.
  destruct (restart_invariant rs reqs (startup d0, d0)) as [H1 H2];
    try reflexivity.
  repeat split; assumption.
Qed.

Example restart_after_sample_requests :
  let sd := run_on_disk all_open sample_requests (startup NoFile, NoFile) in
  ids (startup (snd sd)) = [1; 3; 4]%Z /\
  markCounter (startup (snd sd)) = 4%Z.
Proof. split; reflexivity. Qed.

Example hand_edited_file_repeats_an_id :
  let s := startup file_without_counter in
  ids s = [1%Z] /\ markCounter s = 0%Z /\
  ids (next all_open (Create "t" 0 sample_body) s) = [1; 1]%Z.
Proof. repeat split. Qed.

(** ** Connections *)

Lemma existsb_clients_add (c c' : ws) (cs : list ws) :
  existsb (Nat.eqb c) (clients_add c' cs)
    = if Nat.eqb c c' then true else existsb (Nat.eqb c) cs.
Proof.
  unfold clients_add.
  destruct (Nat.eqb_spec c c') as [E|E].
  - subst c'. destruct (existsb (Nat.eqb c) cs) eqn:H; auto.
    rewrite existsb_app. simpl. rewrite Nat.eqb_refl.
    now rewrite !orb_true_r.
  - destruct (existsb (Nat.eqb c') cs); auto.
    rewrite existsb_app. simpl.
    replace (c =? c')%nat with false by (symmetry; now apply Nat.eqb_neq).
    now rewrite !orb_false_r.
Qed.

Lemma existsb_clients_delete (c c' : ws) (cs : list ws) :
  existsb (Nat.eqb c) (clients_delete c' cs)
    = if Nat.eqb c c' then false else existsb (Nat.eqb c) cs.
Proof.
  unfold clients_delete.
  induction cs as [|x cs IH]; simpl.
  - now destruct (Nat.eqb c c').
  - destruct (Nat.eqb_spec c' x) as [E|E]; simpl.
    + subst x. rewrite IH.
      destruct (Nat.eqb_spec c c'); auto.
    + rewrite IH. destruct (Nat.eqb_spec c c') as [F|F]; auto.
      subst c'. replace (c =? x)%nat with false
        by (symmetry; now apply Nat.eqb_neq).
      reflexivity.
Qed.

Lemma clients_step (rs : ReadyStates) (r : Request) (s : Server) :
  clients (next rs r s)
    = match r with
      | Connect c => clients_add c (clients s)
      | Close c => clients_delete c (clients s)
      | _ => clients s
      end.
Proof.
  unfold next.
  destruct r as [now f|now_iso now_ms b|id|id label| |c|c]; simpl; auto.
  - unfold post_marks.
    destruct (is_undefined (body_latitude b) || is_undefined (body_longitude b));
      auto.
    destruct (body_latitude b), (body_longitude b); auto.
  - unfold delete_mark. destruct (findIndex (id_is id) (marks s)); auto.
  - unfold patch_mark. destruct (find (id_is id) (marks s)); auto.
Qed.

Lemma tracked_after_run (rs : ReadyStates) (c : ws) (reqs : list Request) :
  forall s,
    existsb (Nat.eqb c) (clients (run rs reqs s))
      = connected c reqs (existsb (Nat.eqb c) (clients s)).
Proof.
  induction reqs as [|r reqs IH]; intros s; simpl; auto.
  fold (next rs r s). rewrite IH, clients_step.
  destruct r; auto.
  - now rewrite existsb_clients_add.
  - now rewrite existsb_clients_delete.
Qed.

Lemma delete_added (c : ws) (cs : list ws) :
  ~ In c cs -> clients_delete c (clients_add c cs) = cs.
Proof.
  intros H. unfold clients_add.
  replace (existsb (Nat.eqb c) cs) with false.
  - unfold clients_delete. rewrite filter_app. simpl.
    rewrite Nat.eqb_refl. simpl. rewrite app_nil_r.
    induction cs as [|x cs IH]; simpl; auto.
    destruct (Nat.eqb_spec c x) as [E|E]; simpl.
    + exfalso. apply H. now left.
    + rewrite IH; auto. intros F. apply H. now right.
  - symmetry. apply not_true_is_false. intros F.
    apply existsb_eqb_in in F. contradiction.
Qed.

(** X6.  [clients] tracks the open connections: for a connection in
    no way tracked yet, connecting raises the count the health check
    reports by one and a close after it gives back the old set; after every
    sequence of requests a connection is tracked exactly when the last
    connect or close about it was a connect (or, if there was none, when it
    was tracked before); position updates and mark requests never change
    the set; and from the empty server no connection is ever tracked
    twice. *)
Theorem connections_are_tracked
    (rs : ReadyStates) (reqs : list Request) (c : ws) (s : Server) :
  ~ In c (clients s) ->
  fst (get_health (next rs (Connect c) s)) = S (fst (get_health s)) /\
  clients (run rs [Connect c; Close c] s) = clients s /\
  existsb (Nat.eqb c) (clients (run rs reqs s)) = connected c reqs false /\
  (forall r, mutates r = true -> clients (next rs r s) = clients s) /\
  NoDup (clients (run rs reqs server0)).
Proof.
  intros H.
  assert (F : existsb (Nat.eqb c) (clients s) = false).
  { apply not_true_is_false. intros F. apply existsb_eqb_in in F.
    contradiction. }
  split; [|split; [|split; [|split]]].
  - unfold get_health, next. simpl. unfold clients_add. rewrite F.
    rewrite length_app. simpl. lia.
  - simpl. now apply delete_added.
  - now rewrite tracked_after_run, F.
  - intros r Hr. rewrite clients_step. destruct r; auto; discriminate.
  - apply clients_NoDup. constructor.
Qed.

Lemma connections_are_tracked_witness :
  fst (get_health (next one_closing (Connect 9%nat) sample_server))
    = S (fst (get_health sample_server)) /\
  clients (run one_closing [Connect 9%nat; Close 9%nat] sample_server)
    = clients sample_server /\
  existsb (Nat.eqb 9%nat)
          (clients (run one_closing
                        [Connect 9%nat; Ingest "t" sample_fix; Close 2%nat]
                        sample_server))
    = connected 9%nat [Connect 9%nat; Ingest "t" sample_fix; Close 2%nat] false /\
  (forall r, mutates r = true ->
             clients (next one_closing r sample_server) = clients sample_server) /\
  NoDup (clients (run one_closing
                      [Connect 9%nat; Ingest "t" sample_fix; Close 2%nat]
                      server0)).
Proof.
  apply (connections_are_tracked one_closing
           [Connect 9%nat; Ingest "t" sample_fix; Close 2%nat] 9%nat
           sample_server).
  simpl. intuition discriminate.
Defined.

(** ** Position and marks side by side *)

(** X7.  The position store and the mark registry do not touch each
    other: a request that is not a position update leaves [roverState] as
    it is; a position update leaves the marks, the counter and the tracked
    connections as they are; and handling a position update before or
    after another request ends in the same server state. *)
Theorem position_and_marks_are_independent
    (rs : ReadyStates) (now : string) (f : Fix) (r : Request) (s : Server) :
  (forall now' f', r <> Ingest now' f') ->
  roverState (next rs r s) = roverState s /\
  marks (next rs (Ingest now f) s) = marks s /\
  markCounter (next rs (Ingest now f) s) = markCounter s /\
  clients (next rs (Ingest now f) s) = clients s /\
  run rs [Ingest now f; r] s = run rs [r; Ingest now f] s.
Proof.
  intros H. unfold next.
  destruct r as [now' f'|now_iso now_ms b|id|id label| |c|c]; simpl.
  - exfalso. now apply (H now' f').
  - unfold post_marks. simpl.
    destruct (is_undefined (body_latitude b) || is_undefined (body_longitude b));
      simpl; auto.
    destruct (body_latitude b), (body_longitude b); simpl; auto.
  - unfold delete_mark. simpl.
    destruct (findIndex (id_is id) (marks s)); simpl; auto.
  - unfold patch_mark. simpl.
    destruct (find (id_is id) (marks s)); simpl; auto.
  - auto.
  - auto.
  - auto.
Qed.

Lemma position_and_marks_are_independent_witness :
  roverState (next one_closing (Delete (Some 3%Z)) sample_server)
    = roverState sample_server /\
  marks (next one_closing (Ingest "t" sample_fix) sample_server)
    = marks sample_server /\
  markCounter (next one_closing (Ingest "t" sample_fix) sample_server)
    = markCounter sample_server /\
  clients (next one_closing (Ingest "t" sample_fix) sample_server)
    = clients sample_server /\
  run one_closing [Ingest "t" sample_fix; Delete (Some 3%Z)] sample_server
    = run one_closing [Delete (Some 3%Z); Ingest "t" sample_fix] sample_server.
Proof.
  apply (position_and_marks_are_independent one_closing "t" sample_fix
           (Delete (Some 3%Z)) sample_server).
  intros now' f'. discriminate.
Defined.

(** ** Edges of the position update *)

Lemma toFixed1_of_zero (x : Q) : (x == 0)%Q -> toFixed1 x = "0.0"%string.
Proof.
  intros H. unfold toFixed1, tenths.
  assert (Hs : Qle_bool 0 x = true) by (apply Qle_bool_iff; rewrite H; lra).
  assert (Hn : Qfloor (10 * Qabs x + (1 # 2)) = 0%Z).
  { rewrite H. reflexivity. }
  rewrite Hs, Hn. reflexivity.
Qed.



Lemma two_digits_padStart (n : Z) :
  (0 <= n < 100)%Z -> padStart 2 "0" (String_ (Val n)) = two_digits n.
Proof.
  intros H.
  assert (E : forallb (fun k => String.eqb (padStart 2 "0" (String_ (Val k)))
                                           (two_digits k))
                      (map Z.of_nat (seq 0 100)) = true) by reflexivity.
  rewrite forallb_forall in E.
  apply String.eqb_eq, E.
  apply in_map_iff. exists (Z.to_nat n). split; [lia|].
  apply in_seq. lia.
Qed.

(** X9.  The timestamp of a position update whose hour, minute and
    second are numbers from 0 to 99 is [HH:MM:SS UTC] with each part
    printed as exactly two decimal digits, a leading zero where needed. *)
Theorem timestamp_is_zero_padded (f : Fix) (h m sec : Z) :
  fix_hour f = Val h -> fix_min f = Val m -> fix_sec f = Val sec ->
  (0 <= h < 100)%Z -> (0 <= m < 100)%Z -> (0 <= sec < 100)%Z ->
  timestamp_of f
    = (two_digits h ++ ":" ++ two_digits m ++ ":" ++ two_digits sec
       ++ " UTC")%string /\
  String.length (timestamp_of f) = 12%nat.
Proof.
  intros Hh Hm Hs Rh Rm Rs. unfold timestamp_of.
  rewrite Hh, Hm, Hs, !two_digits_padStart by assumption.
  split; reflexivity.
Qed.

Lemma timestamp_is_zero_padded_witness :
  timestamp_of sample_fix
    = (two_digits 1 ++ ":" ++ two_digits 0 ++ ":" ++ two_digits 0
       ++ " UTC")%string /\
  String.length (timestamp_of sample_fix) = 12%nat.
Proof.
  apply (timestamp_is_zero_padded sample_fix 1 0 0);
    (reflexivity || lia).
Defined.

End RegistryFacts.

(* ================================================================== *)
(** * More properties of the geometry engine *)
(* ================================================================== *)

Module ShapesFacts.

Import Geometry Shapes.
Local Open Scope R_scope.

(** ** A full turn *)

Lemma heading_plus_360 (h : R) :
  cos ((h + 360) * PI / 180) = cos (h * PI / 180) /\
  sin ((h + 360) * PI / 180) = sin (h * PI / 180).
Proof.
  replace ((h + 360) * PI / 180) with (h * PI / 180 + 2 * PI) by lra.
  rewrite cos_plus, sin_plus, cos_2PI, sin_2PI. split; ring.
Qed.

Lemma localToWorld_full_turn (x y lat lon h : R) :
  localToWorld x y lat lon (h + 360) = localToWorld x y lat lon h.
Proof.
  unfold localToWorld.
  destruct (heading_plus_360 h) as [Hc Hs]. now rewrite Hc, Hs.
Qed.

(** X10.  Turning the heading by 360 degrees changes nothing: the world
    position of every local point, the hull, nozzle, suction-tip and
    tailings rings, the suction tip position and the heading indicator are
    the same for [heading + 360] as for [heading]. *)
Theorem full_turn_changes_nothing (x y lat lon h : R) :
  localToWorld x y lat lon (h + 360) = localToWorld x y lat lon h /\
  generateDredgeGeoJSON lat lon (h + 360) = generateDredgeGeoJSON lat lon h /\
  generateNozzleGeoJSON lat lon (h + 360) = generateNozzleGeoJSON lat lon h /\
  generateSuctionTipGeoJSON lat lon (h + 360)
    = generateSuctionTipGeoJSON lat lon h /\
  generateTailingsZoneGeoJSON lat lon (h + 360)
    = generateTailingsZoneGeoJSON lat lon h /\
  getSuctionTipPosition lat lon (h + 360) = getSuctionTipPosition lat lon h /\
  headingIndicator lat lon (h + 360) = headingIndicator lat lon h.
Proof.
  assert (M : forall l : list Point,
             map (fun c => localToWorld (fst c) (snd c) lat lon (h + 360)) l
             = map (fun c => localToWorld (fst c) (snd c) lat lon h) l).
  { intros l. apply map_ext. intros c. apply localToWorld_full_turn. }
  split; [apply localToWorld_full_turn|].
  split; [unfold generateDredgeGeoJSON; cbv zeta; now rewrite M|].
  split; [unfold generateNozzleGeoJSON; cbv zeta; now rewrite M|].
  split.
  { unfold generateSuctionTipGeoJSON. apply map_ext. intros i.
    apply localToWorld_full_turn. }
  split; [unfold generateTailingsZoneGeoJSON; cbv zeta; now rewrite M|].
  split; [apply localToWorld_full_turn|].
  unfold headingIndicator. cbv zeta. now rewrite !localToWorld_full_turn.
Qed.

(** ** Lengths and directions *)

Lemma north_of_localToWorld (x y lat lon h : R) :
  north_metres lat (localToWorld x y lat lon h)
    = - feetToMeters (x - 22) * sin (h * PI / 180)
      + feetToMeters (y - 30) * cos (h * PI / 180).
Proof.
  unfold north_metres, localToWorld, DREDGE_CONFIG.antenna.x,
    DREDGE_CONFIG.antenna.y. simpl.
  assert (Hpi := PI_RGT_0). field. lra.
Qed.

Lemma east_of_localToWorld (x y lat lon h : R) :
  cos (lat * PI / 180) <> 0 ->
  east_metres lat lon (localToWorld x y lat lon h)
    = feetToMeters (x - 22) * cos (h * PI / 180)
      + feetToMeters (y - 30) * sin (h * PI / 180).
Proof.
  intros Hc.
  unfold east_metres, localToWorld, DREDGE_CONFIG.antenna.x,
    DREDGE_CONFIG.antenna.y. simpl.
  assert (Hpi := PI_RGT_0). field. split; [lra|assumption].
Qed.

Lemma rotation_keeps_length (a b t : R) :
  (a * cos t + b * sin t)² + (- a * sin t + b * cos t)² = a² + b².
Proof.
  assert (H := sin2_cos2 t). unfold Rsqr in *. nra.
Qed.

(** X11.  The transform is rigid: away from the poles, the northward
    and eastward offsets in metres between the world images of two local
    points span the same length as the two local points do, feet turned
    into metres; in particular a local point lies as far from the antenna
    position in the world as it does on the vessel. *)
Theorem local_to_world_keeps_lengths (x1 y1 x2 y2 lat lon h : R) :
  cos (lat * PI / 180) <> 0 ->
  let P := localToWorld x1 y1 lat lon h in
  let Q := localToWorld x2 y2 lat lon h in
  (east_metres lat lon Q - east_metres lat lon P)²
  + (north_metres lat Q - north_metres lat P)²
    = (feetToMeters (x2 - x1))² + (feetToMeters (y2 - y1))² /\
  (east_metres lat lon P)² + (north_metres lat P)²
    = (feetToMeters (x1 - DREDGE_CONFIG.antenna.x))²
      + (feetToMeters (y1 - DREDGE_CONFIG.antenna.y))².
Proof.
  intros Hc. cbv zeta.
  rewrite !north_of_localToWorld, !east_of_localToWorld by assumption.
  unfold DREDGE_CONFIG.antenna.x, DREDGE_CONFIG.antenna.y.
  split.
  - rewrite <- (rotation_keeps_length (feetToMeters (x2 - x1))
                                      (feetToMeters (y2 - y1))
                                      (h * PI / 180)).
    unfold feetToMeters, Rsqr. ring.
  - apply rotation_keeps_length.
Qed.

Lemma cos_0_not_0 : cos (0 * PI / 180) <> 0.
Proof. replace (0 * PI / 180) with 0 by lra. rewrite cos_0. lra. Qed.

Lemma local_to_world_keeps_lengths_witness :
  let P := localToWorld 0 0 0 (-122) 30 in
  let Q := localToWorld 32 40 0 (-122) 30 in
  (east_metres 0 (-122) Q - east_metres 0 (-122) P)²
  + (north_metres 0 Q - north_metres 0 P)²
    = (feetToMeters (32 - 0))² + (feetToMeters (40 - 0))² /\
  (east_metres 0 (-122) P)² + (north_metres 0 P)²
    = (feetToMeters (0 - DREDGE_CONFIG.antenna.x))²
      + (feetToMeters (0 - DREDGE_CONFIG.antenna.y))².
Proof.
  apply (local_to_world_keeps_lengths 0 0 32 40 0 (-122) 30).
  exact cos_0_not_0.
Defined.

(** X12.  The body axes follow the compass: away from the poles, a
    local point lies [(y - 30) cos h - (x - 22) sin h] feet north and
    [(x - 22) cos h + (y - 30) sin h] feet east of the antenna, in metres,
    for heading [h] in degrees; so at heading 0 the bow points north and
    starboard east, at heading 90 the bow points east and starboard south,
    and the heading indicator is a segment of 20 feet along the bearing
    [h]. *)
Theorem body_axes_follow_compass (x y lat lon h : R) :
  cos (lat * PI / 180) <> 0 ->
  let t := h * PI / 180 in
  north_metres lat (localToWorld x y lat lon h)
    = feetToMeters (y - 30) * cos t - feetToMeters (x - 22) * sin t /\
  east_metres lat lon (localToWorld x y lat lon h)
    = feetToMeters (x - 22) * cos t + feetToMeters (y - 30) * sin t /\
  north_metres lat (localToWorld x y lat lon 0) = feetToMeters (y - 30) /\
  east_metres lat lon (localToWorld x y lat lon 0) = feetToMeters (x - 22) /\
  north_metres lat (localToWorld x y lat lon 90) = - feetToMeters (x - 22) /\
  east_metres lat lon (localToWorld x y lat lon 90) = feetToMeters (y - 30) /\
  (exists bowCenter bowExtended,
      headingIndicator lat lon h = [bowCenter; bowExtended] /\
      north_metres lat bowExtended - north_metres lat bowCenter
        = feetToMeters 20 * cos t /\
      east_metres lat lon bowExtended - east_metres lat lon bowCenter
        = feetToMeters 20 * sin t).
Proof.
  intros Hc. cbv zeta.
  assert (H0 : 0 * PI / 180 = 0) by lra.
  assert (H90 : 90 * PI / 180 = PI / 2) by lra.
  rewrite !north_of_localToWorld, !east_of_localToWorld by assumption.
  rewrite H0, H90, cos_0, sin_0, cos_PI2, sin_PI2.
  repeat split; try ring.
  eexists _, _. split; [reflexivity|].
  rewrite !north_of_localToWorld, !east_of_localToWorld by assumption.
  unfold feetToMeters, DREDGE_CONFIG.hull.width, DREDGE_CONFIG.hull.length.
  split; ring.
Qed.

Lemma body_axes_follow_compass_witness :
  let t := 30 * PI / 180 in
  north_metres 0 (localToWorld 16 40 0 (-122) 30)
    = feetToMeters (40 - 30) * cos t - feetToMeters (16 - 22) * sin t /\
  east_metres 0 (-122) (localToWorld 16 40 0 (-122) 30)
    = feetToMeters (16 - 22) * cos t + feetToMeters (40 - 30) * sin t /\
  north_metres 0 (localToWorld 16 40 0 (-122) 0) = feetToMeters (40 - 30) /\
  east_metres 0 (-122) (localToWorld 16 40 0 (-122) 0) = feetToMeters (16 - 22) /\
  north_metres 0 (localToWorld 16 40 0 (-122) 90) = - feetToMeters (16 - 22) /\
  east_metres 0 (-122) (localToWorld 16 40 0 (-122) 90) = feetToMeters (40 - 30) /\
  (exists bowCenter bowExtended,
      headingIndicator 0 (-122) 30 = [bowCenter; bowExtended] /\
      north_metres 0 bowExtended - north_metres 0 bowCenter
        = feetToMeters 20 * cos t /\
      east_metres 0 (-122) bowExtended - east_metres 0 (-122) bowCenter
        = feetToMeters 20 * sin t).
Proof.
  apply (body_axes_follow_compass 16 40 0 (-122) 30).
  exact cos_0_not_0.
Defined.

(** ** Rings and centres *)

Lemma closed_by_push (l : list Point) (p : Point) (rest : list Point) :
  l = p :: rest -> closed_ring (l ++ firstn 1 l).
Proof. intros E. subst l. exists p, rest. reflexivity. Qed.

Lemma map_ends {A B} (f : A -> B) (a : A) (l : list A) (b : A) :
  map f (a :: l ++ [b]) = f a :: map f l ++ [f b].
Proof. simpl. now rewrite map_app. Qed.

Lemma tipCirclePoint_24 : tipCirclePoint 24 = tipCirclePoint 0.
Proof.
  unfold tipCirclePoint. cbv zeta.
  replace (INR 24 / 24 * 2 * PI) with (2 * PI) by (simpl; lra).
  replace (INR 0 / 24 * 2 * PI) with 0 by (simpl; lra).
  now rewrite cos_2PI, sin_2PI, cos_0, sin_0.
Qed.

(** X13.  Every polygon the engine draws is a closed ring: the hull,
    nozzle and tailings rings have five vertices, the suction-tip circle
    25 and the simple marker circle 33, and in each the last vertex is the
    first one again, for every position, heading and radius. *)
Theorem rings_are_closed (lat lon h r : R) :
  (closed_ring (generateDredgeGeoJSON lat lon h) /\
   List.length (generateDredgeGeoJSON lat lon h) = 5%nat) /\
  (closed_ring (generateNozzleGeoJSON lat lon h) /\
   List.length (generateNozzleGeoJSON lat lon h) = 5%nat) /\
  (closed_ring (generateTailingsZoneGeoJSON lat lon h) /\
   List.length (generateTailingsZoneGeoJSON lat lon h) = 5%nat) /\
  (closed_ring (generateSuctionTipGeoJSON lat lon h) /\
   List.length (generateSuctionTipGeoJSON lat lon h) = 25%nat) /\
  (closed_ring (generateSimpleCircleGeoJSON lat lon r) /\
   List.length (generateSimpleCircleGeoJSON lat lon r) = 33%nat).
Proof.
  split; [split; [eapply closed_by_push; reflexivity|reflexivity]|].
  split; [split; [eapply closed_by_push; reflexivity|reflexivity]|].
  split; [split; [eapply closed_by_push; reflexivity|reflexivity]|].
  split; split; try reflexivity.
  - unfold generateSuctionTipGeoJSON.
    change (seq 0 25) with (0%nat :: seq 1 23 ++ [24%nat]).
    rewrite map_ends. cbv beta. rewrite tipCirclePoint_24.
    eexists _, _. reflexivity.
  - unfold generateSimpleCircleGeoJSON. cbv zeta.
    change (seq 0 33) with (0%nat :: seq 1 31 ++ [32%nat]).
    rewrite map_ends. cbv beta.
    replace (INR 32 / 32 * 2 * PI) with (2 * PI) by (simpl; lra).
    replace (INR 0 / 32 * 2 * PI) with 0 by (simpl; lra).
    rewrite cos_2PI, sin_2PI, cos_0, sin_0.
    eexists _, _. reflexivity.
Qed.

Lemma circle_point_distance (cx cy r a lat lon h : R) :
  cos (lat * PI / 180) <> 0 ->
  let P := localToWorld (cx + r * cos a) (cy + r * sin a) lat lon h in
  let T := localToWorld cx cy lat lon h in
  (east_metres lat lon P - east_metres lat lon T)²
  + (north_metres lat P - north_metres lat T)² = (feetToMeters r)².
Proof.
  intros Hc. cbv zeta.
  rewrite !north_of_localToWorld, !east_of_localToWorld by assumption.
  assert (H1 := sin2_cos2 a).
  assert (H2 := rotation_keeps_length (feetToMeters (r * cos a))
                                      (feetToMeters (r * sin a)) (h * PI / 180)).
  unfold feetToMeters, Rsqr in *. nra.
Qed.

(** X14.  The suction tip position is the centre of what is drawn
    around it: away from the poles, every vertex of the suction-tip circle
    lies [tipRadius] (2 feet, in metres) from [getSuctionTipPosition], and
    that position is the midpoint of the front edge of the nozzle
    rectangle. *)
Theorem suction_tip_is_the_centre (lat lon h : R) :
  cos (lat * PI / 180) <> 0 ->
  let T := getSuctionTipPosition lat lon h in
  Forall (fun P =>
            (east_metres lat lon P - east_metres lat lon T)²
            + (north_metres lat P - north_metres lat T)²
              = (feetToMeters DREDGE_CONFIG.nozzle.tipRadius)²)
         (generateSuctionTipGeoJSON lat lon h) /\
  (exists p0 p1 p2 p3 p4,
      generateNozzleGeoJSON lat lon h = [p0; p1; p2; p3; p4] /\
      fst T = (fst p2 + fst p3) / 2 /\
      snd T = (snd p2 + snd p3) / 2).
Proof.
  intros Hc. cbv zeta. split.
  - unfold generateSuctionTipGeoJSON. apply Forall_forall. intros P HP.
    apply in_map_iff in HP. destruct HP as (i & E & _). subst P.
    unfold tipCirclePoint, getSuctionTipPosition. cbv zeta. simpl fst. simpl snd.
    now apply circle_point_distance.
  - eexists _, _, _, _, _. split; [reflexivity|].
    unfold getSuctionTipPosition, localToWorld, feetToMeters. cbv zeta.
    simpl fst. simpl snd.
    assert (Hpi := PI_neq0).
    split; field; repeat split; assumption.
Qed.

Lemma nth_map_seq {B} (f : nat -> B) (n i : nat) (d : B) :
  (i < n)%nat -> nth i (map f (seq 0 n)) d = f i.
Proof.
  intros H. rewrite nth_indep with (d' := f 0%nat)
    by (rewrite length_map, length_seq; exact H).
  rewrite map_nth. now rewrite seq_nth.
Qed.

Lemma quarter_turns :
  INR 0 / 32 * 2 * PI = 0 /\ INR 8 / 32 * 2 * PI = PI / 2 /\
  INR 16 / 32 * 2 * PI = PI /\ INR 24 / 32 * 2 * PI = 3 * (PI / 2).
Proof. simpl. repeat split; lra. Qed.

(** X15.  The simple marker is centred on the position: away from the
    poles, the four ends of the crosshair are the vertices 0, 8, 16 and 24
    of the marker circle, the position is the midpoint of both crosshair
    lines, the east and north ends are the radius away (feet turned into
    metres), and every vertex of the circle is the radius away from the
    position. *)
Theorem crosshair_ends_on_the_circle (lat lon r : R) :
  cos (lat * PI / 180) <> 0 ->
  let circle := generateSimpleCircleGeoJSON lat lon r in
  (exists west east south north,
      generateCrosshairGeoJSON lat lon r = [[west; east]; [south; north]] /\
      nth 0 circle (0, 0) = east /\ nth 8 circle (0, 0) = north /\
      nth 16 circle (0, 0) = west /\ nth 24 circle (0, 0) = south /\
      (fst west + fst east) / 2 = lon /\ snd west = lat /\ snd east = lat /\
      (snd south + snd north) / 2 = lat /\ fst south = lon /\ fst north = lon /\
      east_metres lat lon east = feetToMeters r /\
      north_metres lat north = feetToMeters r) /\
  Forall (fun P => (east_metres lat lon P)² + (north_metres lat P)²
                   = (feetToMeters r)²) circle.
Proof.
  intros Hc. cbv zeta. assert (Hpi := PI_neq0).
  destruct quarter_turns as (Q0 & Q8 & Q16 & Q24).
  split.
  - eexists _, _, _, _. split; [reflexivity|].
    assert (E : forall i, (i < 33)%nat ->
              nth i (generateSimpleCircleGeoJSON lat lon r) (0, 0)
              = (lon + feetToMeters r * cos (INR i / 32 * 2 * PI) / 6371000
                       * (180 / PI) / cos (lat * PI / 180),
                 lat + feetToMeters r * sin (INR i / 32 * 2 * PI) / 6371000
                       * (180 / PI))).
    { intros i Hi. unfold generateSimpleCircleGeoJSON. cbv zeta.
      now rewrite nth_map_seq by exact Hi. }
    rewrite !E by lia. rewrite Q0, Q8, Q16, Q24.
    rewrite cos_0, sin_0, cos_PI2, sin_PI2, cos_PI, sin_PI, cos_3PI2, sin_3PI2.
    unfold east_metres, north_metres, feetToMeters. simpl fst. simpl snd.
    repeat split; try (f_equal; field; repeat split; assumption);
      try (field; repeat split; assumption).
  - unfold generateSimpleCircleGeoJSON. cbv zeta.
    apply Forall_forall. intros P HP.
    apply in_map_iff in HP. destruct HP as (i & E & _). subst P.
    unfold east_metres, north_metres. simpl fst. simpl snd.
    assert (H := sin2_cos2 (INR i / 32 * 2 * PI)).
    replace ((lon + feetToMeters r * cos (INR i / 32 * 2 * PI) / 6371000
                    * (180 / PI) / cos (lat * PI / 180) - lon)
             * (PI / 180) * 6371000 * cos (lat * PI / 180))
      with (feetToMeters r * cos (INR i / 32 * 2 * PI))
      by (field; repeat split; assumption).
    replace ((lat + feetToMeters r * sin (INR i / 32 * 2 * PI) / 6371000
                    * (180 / PI) - lat) * (PI / 180) * 6371000)
      with (feetToMeters r * sin (INR i / 32 * 2 * PI))
      by (field; assumption).
    unfold Rsqr in *. nra.
Qed.

Lemma suction_tip_is_the_centre_witness :
  let T := getSuctionTipPosition 0 (-122) 30 in
  Forall (fun P =>
            (east_metres 0 (-122) P - east_metres 0 (-122) T)²
            + (north_metres 0 P - north_metres 0 T)²
              = (feetToMeters DREDGE_CONFIG.nozzle.tipRadius)²)
         (generateSuctionTipGeoJSON 0 (-122) 30) /\
  (exists p0 p1 p2 p3 p4,
      generateNozzleGeoJSON 0 (-122) 30 = [p0; p1; p2; p3; p4] /\
      fst T = (fst p2 + fst p3) / 2 /\
      snd T = (snd p2 + snd p3) / 2).
Proof.
  apply (suction_tip_is_the_centre 0 (-122) 30).
  exact cos_0_not_0.
Defined.

Lemma crosshair_ends_on_the_circle_witness :
  let circle := generateSimpleCircleGeoJSON 0 (-122) 3 in
  (exists west east south north,
      generateCrosshairGeoJSON 0 (-122) 3 = [[west; east]; [south; north]] /\
      nth 0 circle (0, 0) = east /\ nth 8 circle (0, 0) = north /\
      nth 16 circle (0, 0) = west /\ nth 24 circle (0, 0) = south /\
      (fst west + fst east) / 2 = -122 /\ snd west = 0 /\ snd east = 0 /\
      (snd south + snd north) / 2 = 0 /\ fst south = -122 /\
      fst north = -122 /\
      east_metres 0 (-122) east = feetToMeters 3 /\
      north_metres 0 north = feetToMeters 3) /\
  Forall (fun P => (east_metres 0 (-122) P)² + (north_metres 0 P)²
                   = (feetToMeters 3)²) circle.
Proof.
  apply (crosshair_ends_on_the_circle 0 (-122) 3).
  exact cos_0_not_0.
Defined.

End ShapesFacts.

(* ================================================================== *)
(** * More properties of the dashboard *)
(* ================================================================== *)

Module DisplayFacts.

Import Geometry Dashboard Shapes Display GeometryFacts DashboardFacts
       ShapesFacts.
Local Open Scope R_scope.

(** ** The haversine distance *)

(** The quantity under the square roots of [haversineDistance]. *)
Lemma haversine_a_bounds (lat1 lon1 lat2 lon2 : R) :
  let dLat := (lat2 - lat1) * PI / 180 in
  let dLon := (lon2 - lon1) * PI / 180 in
  let a := sin (dLat / 2) * sin (dLat / 2) +
           cos (lat1 * PI / 180) * cos (lat2 * PI / 180) *
           sin (dLon / 2) * sin (dLon / 2) in
  0 <= a <= 1.
Proof.
  cbv zeta.
  set (p1 := lat1 * PI / 180). set (p2 := lat2 * PI / 180).
  set (u := sin ((lat2 - lat1) * PI / 180 / 2)).
  set (w := sin ((lon2 - lon1) * PI / 180 / 2)).
  assert (Hu : 0 <= u * u <= 1).
  { assert (H := sin2_cos2 ((lat2 - lat1) * PI / 180 / 2)).
    fold u in H. unfold Rsqr in H.
    generalize (Rle_0_sqr (cos ((lat2 - lat1) * PI / 180 / 2))). unfold Rsqr.
    nra. }
  assert (Hw : 0 <= w * w <= 1).
  { assert (H := sin2_cos2 ((lon2 - lon1) * PI / 180 / 2)).
    fold w in H. unfold Rsqr in H.
    generalize (Rle_0_sqr (cos ((lon2 - lon1) * PI / 180 / 2))). unfold Rsqr.
    nra. }
  assert (HC := COS_bound (p1 + p2)).
  assert (Hk : cos p1 * cos p2 = (1 - 2 * (u * u) + cos (p1 + p2)) / 2).
  { assert (E : cos (p2 - p1) = 1 - 2 * (u * u)).
    { replace (p2 - p1) with (2 * ((lat2 - lat1) * PI / 180 / 2))
        by (unfold p1, p2; lra).
      rewrite cos_2a_sin. fold u. ring. }
    rewrite cos_minus in E. rewrite cos_plus. lra. }
  replace (u * u + cos p1 * cos p2 * w * w)
    with (u * u + (cos p1 * cos p2) * (w * w)) by ring.
  rewrite Hk. split; nra.
Qed.

Lemma atan2_quadrant (y x : R) :
  0 <= y -> 0 <= x -> 0 <= atan2 y x <= PI / 2.
Proof.
  intros Hy Hx. assert (Hpi := PI_RGT_0). unfold atan2.
  destruct (Rlt_dec 0 x) as [Hp|Hn].
  - assert (H0 : 0 <= y / x) by (apply Rmult_le_pos; [assumption|
      left; now apply Rinv_0_lt_compat]).
    destruct (atan_bound (y / x)) as [_ Hb]. split; [|lra].
    rewrite <- atan_0. destruct H0 as [H0|H0].
    + left. now apply atan_increasing.
    + rewrite <- H0. lra.
  - destruct (Rlt_dec x 0); [lra|].
    destruct (Rlt_dec 0 y); [lra|].
    destruct (Rlt_dec y 0); lra.
Qed.

Lemma haversine_same_point (lat lon : R) : haversineDistance lat lon lat lon = 0.
Proof.
  unfold haversineDistance.
  replace ((lat - lat) * PI / 180 / 2) with 0 by lra.
  replace ((lon - lon) * PI / 180 / 2) with 0 by lra.
  rewrite sin_0.
  replace (0 * 0 + cos (lat * PI / 180) * cos (lat * PI / 180) * 0 * 0)
    with 0 by ring.
  rewrite sqrt_0, Rminus_0_r, sqrt_1.
  unfold atan2. destruct (Rlt_dec 0 1) as [_|N]; [|lra].
  replace (0 / 1) with 0 by lra. rewrite atan_0. ring.
Qed.

(** X16.  [haversineDistance] behaves as a distance for all inputs: it
    is the same in both directions, it is zero from a point to itself, it
    is never negative and never more than half the circumference of the
    sphere, and the quantity [a] whose square root and whose complement's
    square root it takes lies between 0 and 1. *)
Theorem haversine_is_a_distance (lat1 lon1 lat2 lon2 : R) :
  haversineDistance lat1 lon1 lat2 lon2 = haversineDistance lat2 lon2 lat1 lon1 /\
  0 <= haversineDistance lat1 lon1 lat2 lon2 <= 6371000 * PI /\
  haversineDistance lat1 lon1 lat1 lon1 = 0 /\
  (let dLat := (lat2 - lat1) * PI / 180 in
   let dLon := (lon2 - lon1) * PI / 180 in
   let a := sin (dLat / 2) * sin (dLat / 2) +
            cos (lat1 * PI / 180) * cos (lat2 * PI / 180) *
            sin (dLon / 2) * sin (dLon / 2) in
   0 <= a <= 1).
Proof.
  split; [|split; [|split]].
  - unfold haversineDistance.
    replace ((lat1 - lat2) * PI / 180 / 2) with (- ((lat2 - lat1) * PI / 180 / 2))
      by lra.
    replace ((lon1 - lon2) * PI / 180 / 2) with (- ((lon2 - lon1) * PI / 180 / 2))
      by lra.
    rewrite !sin_neg.
    set (u := sin ((lat2 - lat1) * PI / 180 / 2)).
    set (w := sin ((lon2 - lon1) * PI / 180 / 2)).
    replace (- u * - u + cos (lat2 * PI / 180) * cos (lat1 * PI / 180) * - w * - w)
      with (u * u + cos (lat1 * PI / 180) * cos (lat2 * PI / 180) * w * w) by ring.
    reflexivity.
  - unfold haversineDistance.
    match goal with |- 0 <= _ * atan2 ?y ?x <= _ =>
      assert (H := atan2_quadrant y x (sqrt_pos _) (sqrt_pos _)) end.
    assert (Hpi := PI_RGT_0). nra.
  - apply haversine_same_point.
  - apply haversine_a_bounds.
Qed.

Lemma bow_axis_image (y lat lon : R) :
  localToWorld 22 y lat lon 0
    = (lon, lat + feetToMeters (y - 30) / 6371000 * (180 / PI)).
Proof.
  unfold localToWorld, DREDGE_CONFIG.antenna.x, DREDGE_CONFIG.antenna.y.
  cbv zeta. replace (0 * PI / 180) with 0 by lra.
  rewrite sin_0, cos_0. unfold feetToMeters. f_equal; unfold Rdiv; ring.
Qed.

(** X17.  [haversineDistance] and [localToWorld] agree: between two
    points on one meridian less than 180 degrees apart the distance is the
    arc of the meridian, and the world image, at heading 0, of the local
    point [y] feet from the stern on the antenna's fore-and-aft line is
    [|y - 30|] feet, in metres, from the antenna position (for [y] within
    ten million feet of the antenna). *)
Theorem haversine_measures_the_bow_axis (lat1 lat2 lon1 y lat lon : R) :
  Rabs (lat2 - lat1) < 180 ->
  Rabs (y - 30) <= 10000000 ->
  haversineDistance lat1 lon1 lat2 lon1
    = 6371000 * (Rabs (lat2 - lat1) * PI / 180) /\
  (let P := localToWorld 22 y lat lon 0 in
   haversineDistance lat lon (snd P) (fst P) = feetToMeters (Rabs (y - 30))).
Proof.
  intros H1 H2. split; [now apply haversine_meridian|].
  cbv zeta. rewrite bow_axis_image. simpl fst. simpl snd.
  assert (Hpi := PI_gt_3).
  assert (Hinv : 0 < / PI) by (apply Rinv_0_lt_compat; lra).
  assert (E : lat + feetToMeters (y - 30) / 6371000 * (180 / PI) - lat
              = (y - 30) * (3048 / 10000 / 6371000 * (180 / PI)))
    by (unfold feetToMeters; field; lra).
  assert (Hk : 0 < 3048 / 10000 / 6371000 * (180 / PI)).
  { unfold Rdiv. repeat apply Rmult_lt_0_compat; lra. }
  assert (A : Rabs (lat + feetToMeters (y - 30) / 6371000 * (180 / PI) - lat)
              = Rabs (y - 30) * (3048 / 10000 / 6371000 * (180 / PI))).
  { rewrite E, Rabs_mult. f_equal. apply Rabs_pos_eq. lra. }
  rewrite haversine_meridian.
  - rewrite A. unfold feetToMeters. field. lra.
  - rewrite A.
    assert (Hle : Rabs (y - 30) * (3048 / 10000 / 6371000 * (180 / PI))
                  <= 10000000 * (3048 / 10000 / 6371000 * (180 / PI)))
      by (apply Rmult_le_compat_r; lra).
    assert (Hb : 10000000 * (3048 / 10000 / 6371000 * (180 / PI)) < 180).
    { replace (10000000 * (3048 / 10000 / 6371000 * (180 / PI)))
        with (180 * (3048000 / 6371000 * / PI)) by (field; lra).
      assert (/ PI < / 3) by (apply Rinv_lt_contravar; lra).
      nra. }
    lra.
Qed.

Lemma haversine_measures_the_bow_axis_witness :
  haversineDistance 45 (-122) (45 + 3 / 1000000) (-122)
    = 6371000 * (Rabs (45 + 3 / 1000000 - 45) * PI / 180) /\
  (let P := localToWorld 22 40 45 (-122) 0 in
   haversineDistance 45 (-122) (snd P) (fst P) = feetToMeters (Rabs (40 - 30))).
Proof.
  apply (haversine_measures_the_bow_axis 45 (45 + 3 / 1000000) (-122) 40 45 (-122)).
  - rewrite (Rabs_step 45 _ (3 / 1000000)); lra.
  - rewrite (Rabs_step 30 _ 10); lra.
Defined.

(** ** When a point is recorded *)

Lemma carr_soln_cases (x : field Z) :
  x = Val 2%Z \/
  (forall A (a b : A), match x with Val 2%Z => a | _ => b end = b).
Proof.
  destruct x as [| |z]; auto.
  destruct z as [|q|q]; auto.
  destruct q as [q|q|]; auto.
  destruct q as [q|q|]; auto.
Qed.



(** ** Test mode *)

Lemma not_live_fix_changes_nothing (data : PositionData) (d : RoverDashboard) :
  locationMode d <> "live"%string -> snd (updateDashboard data d) = d.
Proof.
  intros Hl. unfold updateDashboard.
  destruct (data_latitude data) as [| |lat], (data_longitude data) as [| |lon];
    simpl; auto.
  destruct (is_undefined (data_altitude data)); simpl; auto.
  destruct (String.eqb_spec (locationMode d) "live") as [E|E]; [contradiction|].
  simpl. destruct (currentPosition d); simpl; auto.
  destruct (carr_soln_cases (data_carr_soln data)) as [C|C]; rewrite C; auto.
Qed.

Lemma not_live_act (data : PositionData) (d : RoverDashboard) :
  locationMode d <> "live"%string -> act (OnFix data) d = d.
Proof. intros H. simpl. now apply not_live_fix_changes_nothing. Qed.

(** X19.  Test mode freezes the dashboard: choosing the Nome test
    location puts the current position at the test position and leaves the
    trails alone; after that no number of position messages changes the
    dashboard in any way; and on going back to live mode the current
    position is still the test position until the next fix arrives. *)
Theorem test_mode_freezes_the_dashboard
    (datas : list PositionData) (d : RoverDashboard) :
  let nome := mkPosition (64495336 / 1000000) (- (165402452 / 1000000)) in
  let d' := act (SetLocation "nome") d in
  currentPosition d' = Some nome /\
  trails d' = trails d /\
  perform (map OnFix datas) d' = d' /\
  currentPosition (act (SetLocation "live") d') = Some nome.
Proof.
  cbv zeta. repeat split.
  induction datas as [|data datas IH]; [reflexivity|].
  simpl map. rewrite perform_cons.
  rewrite not_live_act by (simpl; discriminate).
  exact IH.
Qed.

(** ** A page just opened *)

(** On empty storage [init()] leaves the fields as the constructor set
    them; on stored trails only the trails differ. *)
Lemma open_on_empty_storage : dashboard (open None) = constructor.
Proof. reflexivity. Qed.

Lemma open_on_stored_trails (t : Trails) :
  dashboard (open (Some t)) = with_trails t constructor.
Proof. reflexivity. Qed.

(** ** A rover that stands still *)





(** ** What one message does *)

Lemma updateDashboard_outcome (data : PositionData) (d : RoverDashboard) :
  let d' := snd (updateDashboard data d) in
  (trails d' = trails d \/
   exists lat lon,
     data_latitude data = Val lat /\ data_longitude data = Val lon /\
     data_carr_soln data = Val 2%Z /\ locationMode d = "live"%string /\
     data_altitude data <> Undefined /\
     fst (updateDashboard data d) = Normal /\
     d' = pushTrailPoint (mkPosition lat lon)
                         (with_position (Some (mkPosition lat lon)) d)) /\
  heading d' = heading d /\ locationMode d' = locationMode d /\
  minTrailDistance d' = minTrailDistance d.
Proof.
  cbv zeta. unfold updateDashboard.
  destruct (data_latitude data) as [| |lat], (data_longitude data) as [| |lon];
    simpl; auto.
  destruct (data_altitude data) as [| |alt] eqn:Ha; simpl; auto;
    (destruct (String.eqb_spec (locationMode d) "live") as [Hl|Hl]; simpl;
     [ destruct (carr_soln_cases (data_carr_soln data)) as [E|E]; rewrite E;
       simpl; auto;
       unfold recordTrailPoint; simpl;
       destruct (currentPosition d) as [prev|];
       [ destruct (Rlt_dec _ _); simpl; auto | ];
       (split; [|auto]; right; exists lat, lon;
        repeat split; auto; discriminate)
     | destruct (currentPosition d); simpl; auto;
       destruct (carr_soln_cases (data_carr_soln data)) as [E|E]; rewrite E;
       simpl; auto ]).
Qed.

(** X18.  A trail point is recorded only for a live RTK-fixed fix: if
    a position message changes the trails at all, then its [carr_soln] is
    2 (so [getFixStatus] says RTK FIXED and [getFixClass] rtk-fixed,
    whatever the fix type), the dashboard is in live mode, latitude and
    longitude are numbers, the altitude key is present, the handler ran to
    its end, the current position is that of the message, and the piloting
    trail grew by exactly that [[lon, lat]]. *)
Theorem a_point_needs_a_live_rtk_fix
    (fixType : field Z) (data : PositionData) (d : RoverDashboard) :
  trails (snd (updateDashboard data d)) <> trails d ->
  data_carr_soln data = Val 2%Z /\
  getFixStatus fixType (data_carr_soln data) = "RTK FIXED"%string /\
  getFixClass (data_carr_soln data) = "rtk-fixed"%string /\
  locationMode d = "live"%string /\
  (exists lat lon,
      data_latitude data = Val lat /\ data_longitude data = Val lon /\
      currentPosition (snd (updateDashboard data d))
        = Some (mkPosition lat lon) /\
      piloting (trails (snd (updateDashboard data d)))
        = piloting (trails d) ++ [(lon, lat)]) /\
  data_altitude data <> Undefined /\
  fst (updateDashboard data d) = Normal.
Proof.
  intros H.
  destruct (updateDashboard_outcome data d) as [[E|E] _]; [contradiction|].
  destruct E as (lat & lon & H1 & H2 & H3 & H4 & H5 & H6 & E).
  rewrite H3. repeat split; auto.
  exists lat, lon. rewrite E. repeat split; auto.
Qed.

Lemma a_point_needs_a_live_rtk_fix_witness :
  data_carr_soln fixA = Val 2%Z /\
  getFixStatus (Val 3%Z) (data_carr_soln fixA) = "RTK FIXED"%string /\
  getFixClass (data_carr_soln fixA) = "rtk-fixed"%string /\
  locationMode constructor = "live"%string /\
  (exists lat lon,
      data_latitude fixA = Val lat /\ data_longitude fixA = Val lon /\
      currentPosition (snd (updateDashboard fixA constructor))
        = Some (mkPosition lat lon) /\
      piloting (trails (snd (updateDashboard fixA constructor)))
        = piloting (trails constructor) ++ [(lon, lat)]) /\
  data_altitude fixA <> Undefined /\
  fst (updateDashboard fixA constructor) = Normal.
Proof.
  apply (a_point_needs_a_live_rtk_fix (Val 3%Z) fixA constructor).
  change (snd (updateDashboard fixA constructor))
    with (act (OnFix (rtk_fixed 45 (-122))) constructor).
  rewrite first_fix by reflexivity.
  intros H. apply (f_equal (fun t => List.length (piloting t))) in H.
  simpl in H. discriminate.
Defined.

(** ** The piloting trail follows the fixes *)

Lemma Subseq_nil_l {A} (l : list A) : Subseq [] l.
Proof.
  induction l as [|x l IH]; [apply Subseq_nil|now apply Subseq_skip].
Qed.

Lemma Subseq_refl {A} (l : list A) : Subseq l l.
Proof.
  induction l as [|x l IH]; [apply Subseq_nil|now apply Subseq_take].
Qed.

Lemma Subseq_app {A} (a b c d : list A) :
  Subseq a b -> Subseq c d -> Subseq (a ++ c) (b ++ d).
Proof.
  intros H Hc. induction H as [|x l1 l2 H IH|x l1 l2 H IH]; simpl.
  - exact Hc.
  - now apply Subseq_skip.
  - now apply Subseq_take.
Qed.

Lemma act_piloting (a : Action) (d : RoverDashboard) :
  exists extra,
    Subseq extra (reported a) /\
    piloting (trails (act a d))
      = match a with Clear => [] | _ => piloting (trails d) end ++ extra.
Proof.
  destruct a as [data|value|value|].
  - destruct (updateDashboard_outcome data d) as [[E|E] _].
    + exists []. split; [apply Subseq_nil_l|].
      simpl. rewrite E. now rewrite app_nil_r.
    + destruct E as (lat & lon & H1 & H2 & _ & _ & _ & _ & E).
      exists [(lon, lat)]. split.
      * simpl. rewrite H1, H2. apply Subseq_refl.
      * simpl act. rewrite E. reflexivity.
  - exists []. split; [apply Subseq_nil|]. simpl.
    unfold onLocationChange. destruct (String.eqb value "nome"); simpl;
      now rewrite app_nil_r.
  - exists []. split; [apply Subseq_nil|]. simpl. now rewrite app_nil_r.
  - exists []. split; [apply Subseq_nil|]. reflexivity.
Qed.

Lemma kept_cons {A} (a : Action) (l : list Action) (x : list A) :
  kept (a :: l) x = kept l (match a with Clear => [] | _ => x end).
Proof.
  unfold kept. simpl. destruct a; simpl; auto.
  now destruct (existsb is_clearing l).
Qed.

Lemma perform_piloting (l : list Action) :
  forall d, exists extra,
    Subseq extra (flat_map reported l) /\
    piloting (trails (perform l d)) = kept l (piloting (trails d)) ++ extra.
Proof.
  induction l as [|a l IH]; intros d.
  - exists []. split; [apply Subseq_nil|]. unfold kept. simpl.
    now rewrite app_nil_r.
  - rewrite perform_cons.
    destruct (IH (act a d)) as (extra & Hs & E).
    destruct (act_piloting a d) as (e & He & Ea).
    rewrite kept_cons. simpl flat_map. unfold kept in *.
    destruct (existsb is_clearing l).
    + exists extra. split; [|exact E].
      apply (Subseq_app [] (reported a)); auto. apply Subseq_nil_l.
    + exists (e ++ extra). split; [now apply Subseq_app|].
      rewrite E, Ea. now rewrite app_assoc.
Qed.

(** X21.  The piloting trail follows the fixes: from any state of the
    dashboard, so also on a page opened on stored trails, after any
    sequence of position messages, mode and heading changes and clears,
    the piloting trail is what it held at the start (nothing of it once
    the trails were cleared on the way) followed by reported [[lon, lat]]
    pairs with some left out, in the order the messages came; on a page
    opened on empty storage it is the list of reported pairs with some
    left out. *)
Theorem piloting_trail_follows_the_fixes
    (l : list Action) (d : RoverDashboard) :
  (exists extra,
     Subseq extra (flat_map reported l) /\
     piloting (trails (perform l d)) = kept l (piloting (trails d)) ++ extra) /\
  Subseq (piloting (trails (perform l (dashboard (open None)))))
         (flat_map reported l).
Proof.
  split; [apply perform_piloting|].
  destruct (perform_piloting l (dashboard (open None))) as (extra & Hs & E).
  rewrite E. unfold kept. simpl.
  destruct (existsb is_clearing l); exact Hs.
Qed.

(** ** Suction and tailings follow the piloting trail *)

Lemma act_images (h : R) (a : Action) (d : RoverDashboard) :
  is_heading_change a = false ->
  heading d = h -> images h (trails d) ->
  heading (act a d) = h /\ images h (trails (act a d)).
Proof.
  intros Ha Hh [Hs Ht].
  destruct a as [data|value|value|]; try discriminate.
  - destruct (updateDashboard_outcome data d) as [[E|E] (Hh' & _)].
    + simpl act. rewrite Hh', E. repeat split; auto.
    + destruct E as (lat & lon & _ & _ & _ & _ & _ & _ & E).
      simpl act. rewrite Hh'. split; [assumption|].
      rewrite E. unfold images, pushTrailPoint. simpl.
      rewrite !map_app, Hs, Ht, Hh. split; reflexivity.
  - simpl. unfold onLocationChange.
    destruct (String.eqb value "nome"); simpl; repeat split; auto.
  - simpl. repeat split; auto.
Qed.

Lemma perform_images (h : R) (l : list Action) :
  forall d, existsb is_heading_change l = false ->
    heading d = h -> images h (trails d) ->
    images h (trails (perform l d)).
Proof.
  induction l as [|a l IH]; intros d Hl Hh Hi; [exact Hi|].
  simpl in Hl. apply orb_false_iff in Hl. destruct Hl as [Ha Hl].
  rewrite perform_cons.
  destruct (act_images h a d Ha Hh Hi) as [Hh' Hi'].
  now apply IH.
Qed.

Lemma act_trails (a : Action) (d : RoverDashboard) :
  exists extra,
    Subseq extra (reported a) /\
    piloting (trails (act a d))
      = match a with Clear => [] | _ => piloting (trails d) end ++ extra /\
    suction (trails (act a d))
      = match a with Clear => [] | _ => suction (trails d) end
        ++ map (suctionOf (heading d)) extra /\
    tailings (trails (act a d))
      = match a with Clear => [] | _ => tailings (trails d) end
        ++ map (tailingsOf (heading d)) extra /\
    (is_heading_change a = false -> heading (act a d) = heading d).
Proof.
  destruct a as [data|value|value|].
  - destruct (updateDashboard_outcome data d) as [[E|E] (Hh & _)].
    + exists []. split; [apply Subseq_nil_l|].
      simpl act. rewrite E. simpl. rewrite !app_nil_r. auto.
    + destruct E as (lat & lon & H1 & H2 & _ & _ & _ & _ & E).
      exists [(lon, lat)]. split.
      * simpl. rewrite H1, H2. apply Subseq_refl.
      * simpl act. rewrite E. simpl. auto.
  - exists []. split; [apply Subseq_nil|]. simpl.
    unfold onLocationChange. destruct (String.eqb value "nome"); simpl;
      rewrite !app_nil_r; auto.
  - exists []. split; [apply Subseq_nil|]. simpl. rewrite !app_nil_r.
    repeat split; auto. discriminate.
  - exists []. split; [apply Subseq_nil|]. simpl. auto.
Qed.

Lemma perform_trails (l : list Action) :
  forall d, existsb is_heading_change l = false ->
    exists extra,
      Subseq extra (flat_map reported l) /\
      piloting (trails (perform l d)) = kept l (piloting (trails d)) ++ extra /\
      suction (trails (perform l d))
        = kept l (suction (trails d)) ++ map (suctionOf (heading d)) extra /\
      tailings (trails (perform l d))
        = kept l (tailings (trails d)) ++ map (tailingsOf (heading d)) extra /\
      heading (perform l d) = heading d.
Proof.
  induction l as [|a l IH]; intros d Hl.
  - exists []. split; [apply Subseq_nil|]. unfold kept. simpl.
    rewrite !app_nil_r. auto.
  - simpl in Hl. apply orb_false_iff in Hl. destruct Hl as [Ha Hl].
    rewrite perform_cons.
    destruct (IH (act a d) Hl) as (extra & Hs & Ep & Es & Et & Eh).
    destruct (act_trails a d) as (e & He & Ap & As & At & Ah).
    specialize (Ah Ha). rewrite Ah in *.
    rewrite !kept_cons. simpl flat_map. unfold kept in *.
    destruct (existsb is_clearing l).
    + exists extra. split; [|auto].
      apply (Subseq_app [] (reported a)); auto. apply Subseq_nil_l.
    + exists (e ++ extra). split; [now apply Subseq_app|].
      rewrite Ep, Es, Et, Ap, As, At, !map_app, !app_assoc. auto.
Qed.

(** X22.  Suction and tailings follow the piloting trail: from any
    state of the dashboard, so also on stored trails or after points were
    recorded at another heading, let position messages, mode changes and
    clears happen while the heading stays at its value [h].  Then the
    three trails are what they held at the start (nothing of it once the
    trails were cleared on the way), each followed by what the run
    recorded: reported [[lon, lat]] pairs on the piloting trail, and on
    the suction and the tailings trail those same pairs mapped through
    [getSuctionTipPosition] and [generateTailingsZoneGeoJSON] at heading
    [h], point for point.  So if the suction and tailings trails were the
    images at [h] of the piloting trail when the run started, they still
    are when it ends. *)
Theorem suction_and_tailings_are_images
    (l : list Action) (d : RoverDashboard) :
  existsb is_heading_change l = false ->
  let t := trails (perform l d) in
  let h := heading d in
  (exists extra,
     Subseq extra (flat_map reported l) /\
     piloting t = kept l (piloting (trails d)) ++ extra /\
     suction t = kept l (suction (trails d)) ++ map (suctionOf h) extra /\
     tailings t = kept l (tailings (trails d)) ++ map (tailingsOf h) extra) /\
  heading (perform l d) = h /\
  (images h (trails d) -> images h t).
Proof.
  intros Hl. cbv zeta.
  destruct (perform_trails l d Hl) as (extra & Hs & Ep & Es & Et & Eh).
  split; [exists extra; auto|]. split; [exact Eh|].
  intros Hi. now apply (perform_images (heading d) l).
Qed.

Lemma suction_and_tailings_are_images_witness :
  let l := [OnFix fixA; SetLocation "nome"; OnFix fixD] in
  let d := act (SetHeading 90) (dashboard (open (Some stored_trails))) in
  let t := trails (perform l d) in
  let h := heading d in
  (exists extra,
     Subseq extra (flat_map reported l) /\
     piloting t = kept l (piloting (trails d)) ++ extra /\
     suction t = kept l (suction (trails d)) ++ map (suctionOf h) extra /\
     tailings t = kept l (tailings (trails d)) ++ map (tailingsOf h) extra) /\
  heading (perform l d) = h /\
  (images h (trails d) -> images h t).
Proof.
  apply (suction_and_tailings_are_images
           [OnFix fixA; SetLocation "nome"; OnFix fixD]
           (act (SetHeading 90) (dashboard (open (Some stored_trails))))).
  reflexivity.
Defined.

(** The run of the witness: the stored point stays as it was recorded, at
    heading 0; the fix at 45 N is recorded at heading 90; the fix that
    arrives in test mode is not. *)
Example trails_of_a_run_on_stored_trails :
  let d := act (SetHeading 90) (dashboard (open (Some stored_trails))) in
  let t := trails (perform [OnFix fixA; SetLocation "nome"; OnFix fixD] d) in
  piloting t = [(1, 2); (-122, 45)] /\
  suction t = [suctionOf 0 (1, 2); suctionOf 90 (-122, 45)] /\
  tailings t = [tailingsOf 0 (1, 2); tailingsOf 90 (-122, 45)].
Proof.
  cbv zeta. rewrite !perform_cons, perform_nil.
  unfold fixA. rewrite first_fix by reflexivity.
  rewrite not_live_act by (simpl; discriminate).
  repeat split.
Qed.

(** ** From the server to the dashboard *)

Lemma position_frames (rs : Backend.ReadyStates) (now : string)
    (f : Backend.Fix) (s : Backend.Server) :
  let st := Backend.roverState (Backend.next rs (Backend.Ingest now f) s) in
  (forall c msg,
     In (c, msg) (Backend.frames rs (Backend.Ingest now f) s) ->
     msg = Backend.MsgPosition st /\ In c (Backend.clients s) /\ rs c = 1%Z) /\
  (forall c, In c (Backend.clients s) -> rs c = 1%Z ->
     In (c, Backend.MsgPosition st)
        (Backend.frames rs (Backend.Ingest now f) s)).
Proof.
  cbv zeta. split.
  - intros c msg H. apply (BackendFacts.broadcast_frames rs _ _ c msg H).
  - intros c Hc Ho. now apply BackendFacts.broadcast_reaches.
Qed.

(** X23.  From the server to the dashboard: take a fix whose latitude
    and longitude are numbers and whose altitude key is present.  The
    frames the server sends when it ingests the fix go to the tracked
    connections that are open, to each of them, and every one carries the
    position record the server has just stored.  On a page just opened,
    whatever trails [localStorage] held, [updateDashboard] on the data of
    that record ends normally, the current position is that of the fix,
    and the piloting trail is the stored one, followed by the point of the
    fix if [carr_soln] is 2 and by nothing if not. *)
Theorem position_message_end_to_end
    (rs : Backend.ReadyStates) (now : string) (f : Backend.Fix)
    (s : Backend.Server) (item : option Trails) (a b : Q) :
  Backend.fix_latitude f = Val a ->
  Backend.fix_longitude f = Val b ->
  Backend.fix_altitude f <> Undefined ->
  let st := Backend.roverState (Backend.next rs (Backend.Ingest now f) s) in
  let d0 := dashboard (open item) in
  (forall c msg,
     In (c, msg) (Backend.frames rs (Backend.Ingest now f) s) ->
     msg = Backend.MsgPosition st /\ In c (Backend.clients s) /\ rs c = 1%Z) /\
  (forall c, In c (Backend.clients s) -> rs c = 1%Z ->
     In (c, Backend.MsgPosition st)
        (Backend.frames rs (Backend.Ingest now f) s)) /\
  fst (updateDashboard (wire st) d0) = Normal /\
  currentPosition (snd (updateDashboard (wire st) d0))
    = Some (mkPosition (Q2R a) (Q2R b)) /\
  piloting (trails (snd (updateDashboard (wire st) d0)))
    = piloting (trails d0)
      ++ match Backend.fix_carr_soln f with
         | Val 2%Z => [(Q2R b, Q2R a)]
         | _ => []
         end /\
  trails d0 = match item with Some t => t | None => mkTrails [] [] [] end.
Proof.
  intros Ha Hb Halt. cbv zeta.
  destruct (position_frames rs now f s) as [F1 F2].
  split; [exact F1|]. split; [exact F2|].
  unfold wire. simpl. rewrite Ha, Hb.
  unfold updateDashboard. simpl.
  destruct (Backend.fix_altitude f) as [| |alt]; [congruence| |];
    destruct item as [t|]; simpl;
    destruct (carr_soln_cases (Backend.fix_carr_soln f)) as [E|E];
    rewrite ?E; simpl; rewrite ?E, ?app_nil_r; auto.
Qed.

Lemma position_message_end_to_end_witness :
  let rs := Backend.one_closing in
  let s := Backend.sample_server in
  let st := Backend.roverState
              (Backend.next rs (Backend.Ingest "t" fix_with_altitude) s) in
  let d0 := dashboard (open (Some stored_trails)) in
  (forall c msg,
     In (c, msg) (Backend.frames rs (Backend.Ingest "t" fix_with_altitude) s) ->
     msg = Backend.MsgPosition st /\ In c (Backend.clients s) /\ rs c = 1%Z) /\
  (forall c, In c (Backend.clients s) -> rs c = 1%Z ->
     In (c, Backend.MsgPosition st)
        (Backend.frames rs (Backend.Ingest "t" fix_with_altitude) s)) /\
  fst (updateDashboard (wire st) d0) = Normal /\
  currentPosition (snd (updateDashboard (wire st) d0))
    = Some (mkPosition (Q2R 45) (Q2R (- (122)))) /\
  piloting (trails (snd (updateDashboard (wire st) d0)))
    = piloting (trails d0)
      ++ match Backend.fix_carr_soln fix_with_altitude with
         | Val 2%Z => [(Q2R (- (122)), Q2R 45)]
         | _ => []
         end /\
  trails d0 = match Some stored_trails with
              | Some t => t
              | None => mkTrails [] [] []
              end.
Proof.
  apply (position_message_end_to_end Backend.one_closing "t" fix_with_altitude
           Backend.sample_server (Some stored_trails) 45%Q (- (122))%Q);
    [reflexivity | reflexivity | discriminate].
Defined.

Example frames_of_the_sample_fix :
  map fst (Backend.frames Backend.one_closing
             (Backend.Ingest "t" fix_with_altitude) Backend.sample_server)
    = [1%nat; 3%nat].
Proof. reflexivity. Qed.

(** X25.  A fix without altitude stops the handler: take a fix whose
    latitude and longitude are numbers and whose altitude key is absent.
    The server stores it and sends it to each tracked connection that is
    open; the record it sends has no altitude, and on every dashboard,
    whatever its state, [updateDashboard] on that data throws a TypeError
    and leaves position and trails as they were. *)
Theorem a_fix_without_altitude_stops_the_handler
    (rs : Backend.ReadyStates) (now : string) (f : Backend.Fix)
    (s : Backend.Server) (d : RoverDashboard) (a b : Q) :
  Backend.fix_latitude f = Val a ->
  Backend.fix_longitude f = Val b ->
  Backend.fix_altitude f = Undefined ->
  let st := Backend.roverState (Backend.next rs (Backend.Ingest now f) s) in
  (forall c msg,
     In (c, msg) (Backend.frames rs (Backend.Ingest now f) s) ->
     msg = Backend.MsgPosition st /\ In c (Backend.clients s) /\ rs c = 1%Z) /\
  (forall c, In c (Backend.clients s) -> rs c = 1%Z ->
     In (c, Backend.MsgPosition st)
        (Backend.frames rs (Backend.Ingest now f) s)) /\
  data_altitude (wire st) = Undefined /\
  updateDashboard (wire st) d = (TypeError, d).
Proof.
  intros Ha Hb Halt. cbv zeta.
  destruct (position_frames rs now f s) as [F1 F2].
  split; [exact F1|]. split; [exact F2|].
  unfold wire. simpl. rewrite Ha, Hb, Halt.
  split; reflexivity.
Qed.

Lemma a_fix_without_altitude_stops_the_handler_witness :
  let rs := Backend.one_closing in
  let s := Backend.sample_server in
  let d := dashboard (open (Some stored_trails)) in
  let st := Backend.roverState
              (Backend.next rs (Backend.Ingest "t" Backend.sample_fix) s) in
  (forall c msg,
     In (c, msg) (Backend.frames rs (Backend.Ingest "t" Backend.sample_fix) s) ->
     msg = Backend.MsgPosition st /\ In c (Backend.clients s) /\ rs c = 1%Z) /\
  (forall c, In c (Backend.clients s) -> rs c = 1%Z ->
     In (c, Backend.MsgPosition st)
        (Backend.frames rs (Backend.Ingest "t" Backend.sample_fix) s)) /\
  data_altitude (wire st) = Undefined /\
  updateDashboard (wire st) d = (TypeError, d).
Proof.
  apply (a_fix_without_altitude_stops_the_handler Backend.one_closing "t"
           Backend.sample_fix Backend.sample_server
           (dashboard (open (Some stored_trails))) 45%Q (- (122))%Q);
    reflexivity.
Defined.

(** ** Local storage *)

Lemma reload_trails (p : Page) :
  trails (dashboard (reload p))
    = match storage p with Some t => t | None => mkTrails [] [] [] end.
Proof. unfold reload, open, loadTrailsFromStorage. simpl. now destruct (storage p). Qed.

Lemma act_not_pushed (a : Action) (d : RoverDashboard) :
  a <> Clear ->
  (List.length (piloting (trails (act a d)))
   =? List.length (piloting (trails d)))%nat = true ->
  trails (act a d) = trails d.
Proof.
  intros Ha H. destruct a as [data|value|value|]; try congruence.
  - destruct (updateDashboard_outcome data d) as [[E|E] _]; [exact E|].
    destruct E as (lat & lon & _ & _ & _ & _ & _ & _ & E).
    simpl act in *. rewrite E in H. simpl in H.
    rewrite length_app in H. simpl in H. apply Nat.eqb_eq in H. lia.
  - simpl. unfold onLocationChange. now destruct (String.eqb value "nome").
  - reflexivity.
Qed.

Lemma on_event_do (a : Action) (p : Page) :
  a <> Clear ->
  on_event (Do a) p =
    if (List.length (piloting (trails (act a (dashboard p))))
        =? List.length (piloting (trails (dashboard p))))%nat
    then mkPage (act a (dashboard p)) (saveTimeout p) (storage p)
    else saveTrailsToStorage
           (mkPage (act a (dashboard p)) (saveTimeout p) (storage p)).
Proof.
  intros H. destruct a; try congruence; simpl;
    match goal with |- context [(?x =? ?y)%nat] => now destruct (x =? y)%nat end.
Qed.

Lemma on_event_stored (e : PageEvent) (p : Page) :
  stored_is_current p -> stored_is_current (on_event e p).
Proof.
  unfold stored_is_current. rewrite !reload_trails. intros Hp.
  destruct e as [a|].
  - assert (Ha : a = Clear \/ a <> Clear)
      by (destruct a; auto; right; discriminate).
    destruct Ha as [Ha|Ha].
    + subst a. simpl. auto.
    + rewrite on_event_do by exact Ha.
      destruct (_ =? _)%nat eqn:L.
      * simpl. intros Hs. rewrite act_not_pushed by assumption. now apply Hp.
      * unfold saveTrailsToStorage. simpl.
        destruct (saveTimeout p); simpl; discriminate.
  - simpl. unfold onSaveTimeout. destruct (saveTimeout p) eqn:S; simpl; auto.
Qed.

Lemma events_stored (l : list PageEvent) :
  forall p, stored_is_current p -> stored_is_current (events l p).
Proof.
  unfold events. induction l as [|e l IH]; intros p Hp; simpl; auto.
  apply IH. now apply on_event_stored.
Qed.

Lemma open_stored (item : option Trails) : stored_is_current (open item).
Proof.
  intros _. rewrite reload_trails. unfold open, loadTrailsFromStorage. simpl.
  destruct item; reflexivity.
Qed.

(** X24.  Nothing is lost unless a write is pending: open the page on
    any stored trails and let any sequence of position messages, mode and
    heading changes, clears and save-timer firings happen.  Whenever no
    save timer is pending, reloading the page shows exactly the trails the
    page had; and whatever was pending, reloading right after the save
    timer has fired shows exactly the trails the page had. *)
Theorem reload_restores_the_trails (item : option Trails) (l : list PageEvent) :
  let p := events l (open item) in
  saveTimeout p = false ->
  trails (dashboard (reload p)) = trails (dashboard p) /\
  trails (dashboard (reload (on_event SaveTimerFires p)))
    = trails (dashboard p).
Proof.
  cbv zeta. intros Hs.
  assert (H := events_stored l (open item) (open_stored item)).
  split; [now apply H|].
  simpl. unfold onSaveTimeout. rewrite Hs. now apply H.
Qed.

Lemma reload_restores_the_trails_witness :
  let p := events [Do (OnFix fixA); SaveTimerFires] (open None) in
  trails (dashboard (reload p)) = trails (dashboard p) /\
  trails (dashboard (reload (on_event SaveTimerFires p)))
    = trails (dashboard p).
Proof.
  apply (reload_restores_the_trails None [Do (OnFix fixA); SaveTimerFires]).
  reflexivity.
Defined.

End DisplayFacts.
